(** * The console widget of src/notebook/console/widget.ts

    A shallow embedding of [ConsoleWidget] and of the [Private] namespace of
    the same file, and the properties of the console that follow from the
    code: prompt lifecycle, serialisation, the handlers of the editor signals,
    the continuations of the kernel requests, and disposal.

    JavaScript strings are sequences of UTF-16 code units, numbers that the
    code only uses as integers are [Z] (or [N] for the two request counters),
    [null]/[undefined] references are [option]s, and a [TypeError] raised by
    a property access on [null] or [undefined] is an explicit [Thrown]
    outcome that keeps the state reached so far.

    The kernel, the editor and the window are the environment: a request to
    the kernel is recorded with the locals its continuation closes over, and
    the settlement of its promise is a later step that runs the
    continuation. [ConsolePanel] and the focus and scroll handlers, which
    only act on the document of the browser, are left out. *)

From Stdlib Require Import ZArith NArith List String Ascii Bool Lia.
From stdpp Require Import base option list gmap.

Local Open Scope Z_scope.

(** ** JavaScript values used by the console *)

Module Js.

(** A string literal of the source, as UTF-16 code units. *)
Definition js (s : string) : list N :=
  List.map N_of_ascii (list_ascii_of_string s).

(** The values a [MimeBundle] property or a history promise can hold:
    a string, or [undefined] when the property is missing. *)
Inductive Value : Type :=
| Undefined
| Str (s : list N).

(** ToBoolean: [undefined] and the empty string are falsy. *)
Definition truthy (v : Value) : bool :=
  match v with
  | Undefined => false
  | Str [] => false
  | Str (_ :: _) => true
  end.

(** [a || b]. *)
Definition or (a b : Value) : Value := if truthy a then a else b.

(** [xs[i]] for a number [i] that is an integer: [undefined] out of range. *)
Definition index {A} (xs : list A) (i : Z) : option A :=
  if i <? 0 then None else xs !! Z.to_nat i.

(** [s.split('\n')]: never empty, the separator (code unit 10) is dropped. *)
Fixpoint split_newline (s : list N) : list (list N) :=
  match s with
  | [] => [[]]
  | c :: r =>
      if (c =? 10)%N then [] :: split_newline r
      else match split_newline r with
           | l :: ls => (c :: l) :: ls
           | [] => [[c]]
           end
  end.

(** The code units matched by the regular expression class [\s]
    (WhiteSpace and LineTerminator of ECMAScript 2015 and later). *)
Definition is_whitespace (c : N) : bool :=
  ((9 <=? c) && (c <=? 13)
   || (c =? 32) || (c =? 160) || (c =? 5760)
   || (8192 <=? c) && (c <=? 8202)
   || (c =? 8232) || (c =? 8233) || (c =? 8239) || (c =? 8287)
   || (c =? 12288) || (c =? 65279))%N.

(** [c.match(/\S/)] on a one-character string is non-null exactly when the
    character is not white space. *)
Definition matches_non_space (c : N) : bool := negb (is_whitespace c).

(** [++n] on a counter. Numbers are IEEE doubles: every integer up to 2^53
    is exact, and 2^53 + 1 rounds back to 2^53, so a counter that starts at
    0 stops growing there. *)
Definition pre_increment (n : N) : N :=
  if (n <? 2 ^ 53)%N then (n + 1)%N else n.

End Js.

(** ** Outcomes and the monad of the methods *)

(** A method either returns, or throws (a [TypeError] here); the mutations
    made before the throw stay. *)
Inductive Outcome (St A : Type) : Type :=
| Returned (a : A) (s : St)
| Thrown (s : St).
Arguments Returned {St A} a s.
Arguments Thrown {St A} s.

Definition final_state {St A} (o : Outcome St A) : St :=
  match o with
  | Returned _ s => s
  | Thrown s => s
  end.

Definition returns {St A} (o : Outcome St A) : bool :=
  match o with
  | Returned _ _ => true
  | Thrown _ => false
  end.

(** ** Collaborators of the console *)

(** The MIME bundle of an inspect reply: a JavaScript object used as a map
    from MIME type to content. Reading a missing property gives
    [undefined]. *)
Module MimeBundle.
Abbreviation t := (gmap (list N) Js.Value).

Definition get (bundle : t) (key : list N) : Js.Value :=
  default Js.Undefined (bundle !! key).

Definition set (bundle : t) (key : list N) (v : Js.Value) : t :=
  <[key := v]> bundle.
End MimeBundle.

(** The editor state carried by the [textChanged] signal (declared in
    ../cells/editor): the fields the console reads. *)
Module ITextChange.
Record t : Type := {
  newValue : list N;
  line : Z;
  ch : Z;
  coords_top : Z;
  coords_left : Z;
  chHeight : Z
}.
End ITextChange.

(** The editor state carried by the [completionRequested] signal. *)
Module ICompletionRequest.
Record t : Type := {
  currentValue : list N;
  line : Z;
  ch : Z
}.
End ICompletionRequest.

(** The content of the kernel's replies (jupyter-js-services). *)
Module IInspectReply.
Record t : Type := {
  status : list N;
  found : bool;
  data : MimeBundle.t
}.
End IInspectReply.

Module ICompleteReply.
Record t : Type := {
  status : list N;
  matches : list (list N);
  cursor_start : Z;
  cursor_end : Z
}.
End ICompleteReply.

(** Modelled from the spec: ConsoleHistory (./history) is not among the
    sources. Section 4.1 of the specification gives its contract: an
    append-only sequence of submitted commands and a cursor in
    [0, length]; [push] appends unconditionally and moves the cursor to
    the present, [back] and [forward] saturate at the two ends. *)
Module ConsoleHistory.
Record t : Type := {
  kernel : nat;
  items : list (list N);
  cursor : nat
}.

Definition create (k : nat) : t :=
  {| kernel := k; items := []; cursor := 0 |}.

Definition push (text : list N) (h : t) : t :=
  {| kernel := kernel h;
     items := items h ++ [text];
     cursor := length (items h ++ [text]) |}.

Definition back (h : t) : Js.Value * t :=
  match cursor h with
  | O => (Js.Undefined, h)
  | S c =>
      (match items h !! c with
       | Some text => Js.Str text
       | None => Js.Undefined
       end,
       {| kernel := kernel h; items := items h; cursor := c |})
  end.

Definition forward (h : t) : Js.Value * t :=
  if (cursor h <? length (items h))%nat then
    (match items h !! S (cursor h) with
     | Some text => Js.Str text
     | None => Js.Str []
     end,
     {| kernel := kernel h; items := items h; cursor := S (cursor h) |})
  else (Js.Str [], h).
End ConsoleHistory.

(** Modelled from the spec: CompletionModel (../completion) is not among the
    sources. Section 3 of the specification describes the completion state
    as three fields (candidates, cursor range, the [original] request); the
    console also assigns [current] and reads [isDisposed]. The setters are
    plain assignments. *)
Module CompletionModel.
Record t : Type := {
  options : option (list (list N));
  original : option ICompletionRequest.t;
  cursor : option (Z * Z);
  current : option ITextChange.t;
  isDisposed : bool
}.

Definition create : t :=
  {| options := None; original := None; cursor := None; current := None;
     isDisposed := false |}.

Definition set_options (v : option (list (list N))) (m : t) : t :=
  {| options := v; original := original m; cursor := cursor m;
     current := current m; isDisposed := isDisposed m |}.

Definition set_original (v : option ICompletionRequest.t) (m : t) : t :=
  {| options := options m; original := v; cursor := cursor m;
     current := current m; isDisposed := isDisposed m |}.

Definition set_cursor (v : option (Z * Z)) (m : t) : t :=
  {| options := options m; original := original m; cursor := v;
     current := current m; isDisposed := isDisposed m |}.

Definition set_current (v : option ITextChange.t) (m : t) : t :=
  {| options := options m; original := original m; cursor := cursor m;
     current := v; isDisposed := isDisposed m |}.

Definition dispose (m : t) : t :=
  {| options := options m; original := original m; cursor := cursor m;
     current := current m; isDisposed := true |}.
End CompletionModel.

(** The tooltip (./tooltip): its rectangle, the rendered bundle, the two
    style bounds in pixels, and whether it is hidden. *)
Module ConsoleTooltip.
Record t : Type := {
  rect_top : Z;
  rect_left : Z;
  content : option MimeBundle.t;
  maxHeight : option Z;
  maxWidth : option Z;
  hidden : bool
}.

(** [createTooltip]: the rectangle [{top: 0, left: 0}], nothing shown. *)
Definition create : t :=
  {| rect_top := 0; rect_left := 0; content := None;
     maxHeight := None; maxWidth := None; hidden := true |}.

Definition hide (w : t) : t :=
  {| rect_top := rect_top w; rect_left := rect_left w; content := content w;
     maxHeight := maxHeight w; maxWidth := maxWidth w; hidden := true |}.
End ConsoleTooltip.

(** A child of the console's layout: the banner (a raw cell) or a prompt (a
    code cell). [source] is the text of the cell, which the cell editor keeps
    equal to the value of its document; [cursor] is the document's cursor as
    an offset; [connected] says whether the three editor signals are
    connected to the console's handlers. *)
Module Cell.
Inductive Kind : Type := Raw | Code.

Record t : Type := {
  kind : Kind;
  classes : list string;
  source : list N;
  cursor : Z;
  readOnly : bool;
  trusted : bool;
  mimetype : option (list N);
  connected : bool
}.

Definition create (k : Kind) : t :=
  {| kind := k; classes := []; source := []; cursor := 0;
     readOnly := false; trusted := false; mimetype := None;
     connected := false |}.

Definition addClass (c : string) (w : t) : t :=
  {| kind := kind w; classes := classes w ++ [c]; source := source w;
     cursor := cursor w; readOnly := readOnly w; trusted := trusted w;
     mimetype := mimetype w; connected := connected w |}.

Definition set_source (v : list N) (w : t) : t :=
  {| kind := kind w; classes := classes w; source := v;
     cursor := cursor w; readOnly := readOnly w; trusted := trusted w;
     mimetype := mimetype w; connected := connected w |}.

Definition set_readOnly (v : bool) (w : t) : t :=
  {| kind := kind w; classes := classes w; source := source w;
     cursor := cursor w; readOnly := v; trusted := trusted w;
     mimetype := mimetype w; connected := connected w |}.

Definition set_trusted (v : bool) (w : t) : t :=
  {| kind := kind w; classes := classes w; source := source w;
     cursor := cursor w; readOnly := readOnly w; trusted := v;
     mimetype := mimetype w; connected := connected w |}.

Definition set_mimetype (v : list N) (w : t) : t :=
  {| kind := kind w; classes := classes w; source := source w;
     cursor := cursor w; readOnly := readOnly w; trusted := trusted w;
     mimetype := Some v; connected := connected w |}.

Definition set_connected (v : bool) (w : t) : t :=
  {| kind := kind w; classes := classes w; source := source w;
     cursor := cursor w; readOnly := readOnly w; trusted := trusted w;
     mimetype := mimetype w; connected := v |}.

(** The CodeMirror document of the cell's editor: [setValue] replaces the
    text and moves the cursor to the start; [setCursor(posFromIndex(i))]
    places the cursor at offset [i], clipped to the document. *)
Definition setValue (text : list N) (w : t) : t :=
  {| kind := kind w; classes := classes w; source := text;
     cursor := 0; readOnly := readOnly w; trusted := trusted w;
     mimetype := mimetype w; connected := connected w |}.

Definition setCursor (i : Z) (w : t) : t :=
  {| kind := kind w; classes := classes w; source := source w;
     cursor := Z.max 0 (Z.min i (Z.of_nat (length (source w))));
     readOnly := readOnly w; trusted := trusted w;
     mimetype := mimetype w; connected := connected w |}.
End Cell.

(** ** The Private namespace *)

Module Private.
Definition textMime : list N := Js.js "text/plain".
Definition consoleMime : list N :=
  Js.js "application/vnd.jupyter.console-text".

(** [bundle[consoleMime] = bundle[consoleMime] || bundle[textMime]]. The
    source assigns in place and returns the same object. *)
Definition processInspectReply (bundle : MimeBundle.t) : MimeBundle.t :=
  MimeBundle.set bundle consoleMime
    (Js.or (MimeBundle.get bundle consoleMime)
           (MimeBundle.get bundle textMime)).
End Private.

(** ** The console widget *)

Module ConsoleWidget.

(** A field that holds either [null] or the one object allocated for it by
    the constructor. *)
Inductive Ref : Type := Null | Object.

Inductive EdgeLocation : Type := top | bottom.

(** A request sent to the kernel whose promise is not settled yet, with
    the locals that the continuation closes over ([pendingInspect],
    [pendingComplete], [change]). *)
Inductive Request : Type :=
| KernelInfo
| Execute (code : list N)
| Inspect (code : option (list N)) (cursor_pos detail_level : Z)
          (pendingInspect : N) (change : ITextChange.t)
| Complete (code : option (list N)) (cursor_pos : Z)
           (pendingComplete : N) (change : ICompletionRequest.t).

(** How a promise settles. For [KernelInfo] the second component is
    [mimetypeForLangauge(info.language_info)]. *)
Inductive Settlement : Type :=
| KernelInfoReply (banner mimetype : list N)
| ExecuteReply
| InspectReply (value : IInspectReply.t)
| CompleteReply (value : ICompleteReply.t)
| Rejected.

(** The state of a console. [completion_model] is the model object that
    [createCompletion] allocates: the completion widget and the
    continuations of [onCompletionRequest] hold the same object, so it
    outlives the [_completion] field. [pending] lists the unsettled
    requests in the order of issue; [innerHeight] and [innerWidth] are the
    window's. *)
Record t : Type := {
  isDisposed : bool;
  layout : option (list Cell.t);
  kernel : nat;
  _completion : Ref;
  completion_model : CompletionModel.t;
  _mimetype : list N;
  _tooltip : option ConsoleTooltip.t;
  _history : option ConsoleHistory.t;
  _pendingComplete : N;
  _pendingInspect : N;
  pending : list Request;
  innerHeight : Z;
  innerWidth : Z
}.

Definition set_isDisposed (v : bool) (s : t) : t :=
  {| isDisposed := v; layout := layout s; kernel := kernel s;
     _completion := _completion s; completion_model := completion_model s;
     _mimetype := _mimetype s; _tooltip := _tooltip s;
     _history := _history s; _pendingComplete := _pendingComplete s;
     _pendingInspect := _pendingInspect s; pending := pending s;
     innerHeight := innerHeight s; innerWidth := innerWidth s |}.

Definition set_layout (v : option (list Cell.t)) (s : t) : t :=
  {| isDisposed := isDisposed s; layout := v; kernel := kernel s;
     _completion := _completion s; completion_model := completion_model s;
     _mimetype := _mimetype s; _tooltip := _tooltip s;
     _history := _history s; _pendingComplete := _pendingComplete s;
     _pendingInspect := _pendingInspect s; pending := pending s;
     innerHeight := innerHeight s; innerWidth := innerWidth s |}.

Definition set_kernel (v : nat) (s : t) : t :=
  {| isDisposed := isDisposed s; layout := layout s; kernel := v;
     _completion := _completion s; completion_model := completion_model s;
     _mimetype := _mimetype s; _tooltip := _tooltip s;
     _history := _history s; _pendingComplete := _pendingComplete s;
     _pendingInspect := _pendingInspect s; pending := pending s;
     innerHeight := innerHeight s; innerWidth := innerWidth s |}.

Definition set_completion (v : Ref) (s : t) : t :=
  {| isDisposed := isDisposed s; layout := layout s; kernel := kernel s;
     _completion := v; completion_model := completion_model s;
     _mimetype := _mimetype s; _tooltip := _tooltip s;
     _history := _history s; _pendingComplete := _pendingComplete s;
     _pendingInspect := _pendingInspect s; pending := pending s;
     innerHeight := innerHeight s; innerWidth := innerWidth s |}.

Definition set_completion_model (v : CompletionModel.t) (s : t) : t :=
  {| isDisposed := isDisposed s; layout := layout s; kernel := kernel s;
     _completion := _completion s; completion_model := v;
     _mimetype := _mimetype s; _tooltip := _tooltip s;
     _history := _history s; _pendingComplete := _pendingComplete s;
     _pendingInspect := _pendingInspect s; pending := pending s;
     innerHeight := innerHeight s; innerWidth := innerWidth s |}.

Definition set_mimetype (v : list N) (s : t) : t :=
  {| isDisposed := isDisposed s; layout := layout s; kernel := kernel s;
     _completion := _completion s; completion_model := completion_model s;
     _mimetype := v; _tooltip := _tooltip s;
     _history := _history s; _pendingComplete := _pendingComplete s;
     _pendingInspect := _pendingInspect s; pending := pending s;
     innerHeight := innerHeight s; innerWidth := innerWidth s |}.

Definition set_tooltip (v : option ConsoleTooltip.t) (s : t) : t :=
  {| isDisposed := isDisposed s; layout := layout s; kernel := kernel s;
     _completion := _completion s; completion_model := completion_model s;
     _mimetype := _mimetype s; _tooltip := v;
     _history := _history s; _pendingComplete := _pendingComplete s;
     _pendingInspect := _pendingInspect s; pending := pending s;
     innerHeight := innerHeight s; innerWidth := innerWidth s |}.

Definition set_history (v : option ConsoleHistory.t) (s : t) : t :=
  {| isDisposed := isDisposed s; layout := layout s; kernel := kernel s;
     _completion := _completion s; completion_model := completion_model s;
     _mimetype := _mimetype s; _tooltip := _tooltip s;
     _history := v; _pendingComplete := _pendingComplete s;
     _pendingInspect := _pendingInspect s; pending := pending s;
     innerHeight := innerHeight s; innerWidth := innerWidth s |}.

Definition set_pendingComplete (v : N) (s : t) : t :=
  {| isDisposed := isDisposed s; layout := layout s; kernel := kernel s;
     _completion := _completion s; completion_model := completion_model s;
     _mimetype := _mimetype s; _tooltip := _tooltip s;
     _history := _history s; _pendingComplete := v;
     _pendingInspect := _pendingInspect s; pending := pending s;
     innerHeight := innerHeight s; innerWidth := innerWidth s |}.

Definition set_pendingInspect (v : N) (s : t) : t :=
  {| isDisposed := isDisposed s; layout := layout s; kernel := kernel s;
     _completion := _completion s; completion_model := completion_model s;
     _mimetype := _mimetype s; _tooltip := _tooltip s;
     _history := _history s; _pendingComplete := _pendingComplete s;
     _pendingInspect := v; pending := pending s;
     innerHeight := innerHeight s; innerWidth := innerWidth s |}.

Definition set_pending (v : list Request) (s : t) : t :=
  {| isDisposed := isDisposed s; layout := layout s; kernel := kernel s;
     _completion := _completion s; completion_model := completion_model s;
     _mimetype := _mimetype s; _tooltip := _tooltip s;
     _history := _history s; _pendingComplete := _pendingComplete s;
     _pendingInspect := _pendingInspect s; pending := v;
     innerHeight := innerHeight s; innerWidth := innerWidth s |}.

(** *** The monad of the methods *)

Definition M (A : Type) : Type := t -> Outcome t A.

Definition ret {A} (a : A) : M A := fun s => Returned a s.

Definition bind {A B} (m : M A) (k : A -> M B) : M B :=
  fun s =>
    match m s with
    | Returned a s' => k a s'
    | Thrown s' => Thrown s'
    end.

Definition get : M t := fun s => Returned s s.

Definition modify (f : t -> t) : M unit := fun s => Returned tt (f s).

(** A [TypeError]: a property of [null] or [undefined] was read. *)
Definition throw {A} : M A := fun s => Thrown s.

Definition deref {A} (o : option A) : M A :=
  match o with
  | Some a => ret a
  | None => throw
  end.

Declare Scope console_scope.
Delimit Scope console_scope with console.
Bind Scope console_scope with M.

Notation "'let!' x ':=' m 'in' k" := (bind m (fun x => k))
  (at level 10, x name, m at level 100, k at level 200) : console_scope.
Notation "m '>>' k" := (bind m (fun _ => k))
  (at level 90, right associativity) : console_scope.

Local Open Scope console_scope.

(** *** Access to the layout *)

(** [this.layout as PanelLayout], then a method call on it. *)
Definition get_layout : M (list Cell.t) :=
  let! s := get in deref (layout s).

Definition childCount (children : list Cell.t) : Z :=
  Z.of_nat (length children).

(** A reference to a child is its position. [write_child] assigns through
    a reference; a child that is no longer in the layout is out of view. *)
Definition write_child (i : nat) (f : Cell.t -> Cell.t) : M unit :=
  modify (fun s => set_layout (alter f i <$> layout s) s).

Definition addChild (w : Cell.t) : M unit :=
  let! children := get_layout in
  modify (set_layout (Some (children ++ [w]))).

(** Sending a request to [this._session.kernel]. *)
Definition send (r : Request) : M unit :=
  modify (fun s => set_pending (pending s ++ [r]) s).

(** *** The static factories *)

Definition BANNER_CLASS : string := "jp-Console-banner".

Definition createBanner : Cell.t := Cell.create Cell.Raw.
Definition createPrompt : Cell.t := Cell.create Cell.Code.
Definition createCompletion : CompletionModel.t := CompletionModel.create.
Definition createHistory (k : nat) : ConsoleHistory.t :=
  ConsoleHistory.create k.
Definition createTooltip : ConsoleTooltip.t := ConsoleTooltip.create.

(** *** The methods *)

(** [get prompt()]: the last child, or [null] when there is none. *)
Definition prompt : M (option nat) :=
  let! children := get_layout in
  let last := childCount children - 1 in
  ret (if -1 <? last then Some (Z.to_nat last) else None).

(** [newPrompt]: [clearSignalData] disconnects the previous editor, the
    three [connect] calls connect the new one. *)
Definition newPrompt : M unit :=
  let! p := prompt in
  match p with
  | Some i =>
      write_child i
        (fun w => Cell.set_connected false (Cell.set_readOnly true w))
  | None => ret tt
  end >>
  let! s := get in
  addChild (Cell.set_connected true
              (Cell.set_mimetype (_mimetype s) createPrompt)).

(** [initialize]: the banner is read from the layout, the request is
    sent. *)
Definition initialize : M unit :=
  let! children := get_layout in
  send KernelInfo.

(** The continuation of [kernelInfo()] in [initialize]; [banner] there is
    the first child. *)
Definition initialize_then (banner mimetype : list N) : M unit :=
  write_child 0 (Cell.set_source banner) >>
  modify (set_mimetype mimetype) >>
  let! p := prompt in
  match p with
  | Some i => write_child i (Cell.set_mimetype mimetype)
  | None => throw
  end.

(** [Widget.dispose] of phosphor-widget: sets the disposed flag and
    disposes of the layout together with its children. *)
Definition super_dispose : M unit :=
  let! s := get in
  if isDisposed s then ret tt
  else modify (set_isDisposed true) >> modify (set_layout None).

(** [dispose]. Disposing of the completion widget disposes of its model. *)
Definition dispose : M unit :=
  let! s := get in
  if isDisposed s then ret tt
  else
    (let! _ := deref (_tooltip s) in modify (set_tooltip None)) >>
    (let! _ := deref (_history s) in modify (set_history None)) >>
    match _completion s with
    | Null => throw
    | Object =>
        modify (fun s =>
          set_completion_model
            (CompletionModel.dispose (completion_model s)) s)
    end >>
    modify (set_completion Null) >>
    super_dispose.

(** [execute]. CodeCellWidget.execute (../cells) is not among the sources:
    by section 6 of the specification it sends the code to the backend and
    gives a promise that is fulfilled or rejected, which is what [send]
    records. *)
Definition execute : M unit :=
  let! p := prompt in
  match p with
  | None => throw
  | Some i =>
      write_child i (Cell.set_trusted true) >>
      let! s := get in
      let! h := deref (_history s) in
      let! children := get_layout in
      let! w := deref (children !! i) in
      modify (set_history (Some (ConsoleHistory.push (Cell.source w) h))) >>
      send (Execute (Cell.source w))
  end.

(** The loop of [clear]: the bound [layout.childCount() - 2] is read again
    at every iteration, and [cell.dispose()] takes the cell at position 1
    out of the layout. The loop runs at most once per child. *)
Fixpoint clear_loop (fuel : nat) (i : Z) : M unit :=
  match fuel with
  | O => ret tt
  | S fuel' =>
      let! children := get_layout in
      if i <? childCount children - 2 then
        (let! _ := deref (children !! 1%nat) in
         modify (set_layout (Some (delete 1%nat children)))) >>
        clear_loop fuel' (i + 1)
      else ret tt
  end.

(** [clear]. *)
Definition clear : M unit :=
  let! children := get_layout in
  clear_loop (length children) 0 >>
  newPrompt.

(** The loop of [serialize]; [toJSON] is the cell model's own. *)
Fixpoint serialize_loop {R} (toJSON : Cell.t -> R) (fuel : nat) (i : Z)
    (output : list R) : M (list R) :=
  match fuel with
  | O => ret output
  | S fuel' =>
      let! children := get_layout in
      if i <? childCount children then
        let! widget := deref (Js.index children i) in
        serialize_loop toJSON fuel' (i + 1) (output ++ [toJSON widget])
      else ret output
  end.

(** [serialize]. *)
Definition serialize {R} (toJSON : Cell.t -> R) : M (list R) :=
  let! children := get_layout in
  serialize_loop toJSON (length children) 1 [].

(** [showTooltip]: the rectangle is offset by the height of the cursor
    and by the border, the bounds are what is left of the window. *)
Definition showTooltip (change : ITextChange.t) (bundle : MimeBundle.t)
    : M unit :=
  let top := ITextChange.coords_top change + ITextChange.chHeight change in
  let left := ITextChange.coords_left change + 1 in
  let! s := get in
  let maxHeight := innerHeight s - top - 2 in
  let maxWidth := innerWidth s - left - 2 in
  let! tooltip := deref (_tooltip s) in
  modify (set_tooltip (Some
    {| ConsoleTooltip.rect_top := top;
       ConsoleTooltip.rect_left := left;
       ConsoleTooltip.content := Some bundle;
       ConsoleTooltip.maxHeight := Some maxHeight;
       ConsoleTooltip.maxWidth := Some maxWidth;
       ConsoleTooltip.hidden := false |})).

(** The status of a reply that succeeded. *)
Definition ok : list N := Js.js "ok".

(** [updateTooltip]: the counter is incremented and its new value is
    captured by the continuation. *)
Definition updateTooltip (change : ITextChange.t) : M unit :=
  let line :=
    Js.index (Js.split_newline (ITextChange.newValue change))
             (ITextChange.line change) in
  modify (fun s =>
    set_pendingInspect (Js.pre_increment (_pendingInspect s)) s) >>
  let! s := get in
  let pendingInspect := _pendingInspect s in
  send (Inspect line (ITextChange.ch change) 0 pendingInspect change).

(** The continuation of [inspect(contents)] in [updateTooltip]. *)
Definition updateTooltip_then (pendingInspect : N)
    (change : ITextChange.t) (value : IInspectReply.t) : M unit :=
  let! s := get in
  if isDisposed s then ret tt
  else if negb (pendingInspect =? _pendingInspect s)%N then ret tt
  else if negb (bool_decide (IInspectReply.status value = ok))
          || negb (IInspectReply.found value) then ret tt
  else
    let bundle := Private.processInspectReply (IInspectReply.data value) in
    showTooltip change bundle.

(** An assignment to a field of the completion model. *)
Definition update_model (f : CompletionModel.t -> CompletionModel.t)
    : M unit :=
  modify (fun s => set_completion_model (f (completion_model s)) s).

(** [onTextChange]. The condition of the source is
    [line[change.ch - 1] && line[change.ch - 1].match(/\S/)]. *)
Definition onTextChange (change : ITextChange.t) : M unit :=
  let line :=
    Js.index (Js.split_newline (ITextChange.newValue change))
             (ITextChange.line change) in
  let! s := get in
  match _completion s with
  | Null => throw
  | Object =>
      let! line := deref line in
      let not_whitespace :=
        match Js.index line (ITextChange.ch change - 1) with
        | Some c => Js.matches_non_space c
        | None => false
        end in
      if not_whitespace then
        match CompletionModel.original (completion_model s) with
        | Some _ => update_model (CompletionModel.set_current (Some change))
        | None => ret tt
        end >>
        match ITextChange.newValue change with
        | _ :: _ => updateTooltip change
        | [] => ret tt
        end
      else
        (let! tooltip := deref (_tooltip s) in
         modify (set_tooltip (Some (ConsoleTooltip.hide tooltip)))) >>
        update_model (CompletionModel.set_options None) >>
        update_model (CompletionModel.set_original None) >>
        update_model (CompletionModel.set_cursor None)
  end.

(** [onCompletionRequest]: the counter is incremented before the model is
    read from [this._completion]. *)
Definition onCompletionRequest (change : ICompletionRequest.t) : M unit :=
  let code :=
    Js.index (Js.split_newline (ICompletionRequest.currentValue change))
             (ICompletionRequest.line change) in
  modify (fun s =>
    set_pendingComplete (Js.pre_increment (_pendingComplete s)) s) >>
  let! s := get in
  let pendingComplete := _pendingComplete s in
  match _completion s with
  | Null => throw
  | Object =>
      send (Complete code (ICompletionRequest.ch change)
                     pendingComplete change)
  end.

(** The first continuation of [complete(contents)]. *)
Definition onCompletionRequest_then (pendingComplete : N)
    (value : ICompleteReply.t) : M unit :=
  let! s := get in
  if CompletionModel.isDisposed (completion_model s) then ret tt
  else if negb (pendingComplete =? _pendingComplete s)%N then ret tt
  else if negb (bool_decide (ICompleteReply.status value = ok)) then ret tt
  else
    update_model
      (CompletionModel.set_options (Some (ICompleteReply.matches value))) >>
    update_model
      (CompletionModel.set_cursor
         (Some (ICompleteReply.cursor_start value,
                ICompleteReply.cursor_end value))).

(** The second continuation, chained on the first with [.then]: it runs
    whenever the first one returns. *)
Definition onCompletionRequest_then_then (change : ICompletionRequest.t)
    : M unit :=
  update_model (CompletionModel.set_original (Some change)).

(** The two continuations of [history.back()] and [history.forward()] in
    [onEdgeRequest], on the document of the editor that sent the signal. *)
Definition onEdgeRequest_back_then (value : Js.Value) (doc : Cell.t)
    : Cell.t :=
  match value with
  | Js.Str (c :: text) =>
      Cell.setCursor 0 (Cell.setValue (c :: text) doc)
  | _ => doc
  end.

Definition onEdgeRequest_forward_then (value : Js.Value) (doc : Cell.t)
    : Cell.t :=
  let text :=
    match Js.or value (Js.Str []) with
    | Js.Str text => text
    | Js.Undefined => []
    end in
  Cell.setCursor (Z.of_nat (length text)) (Cell.setValue text doc).

(** [onEdgeRequest]; [editor] refers to the child whose editor sent the
    signal. The history resolves its promises at once, so the continuation
    is part of the same step. *)
Definition onEdgeRequest (editor : nat) (location : EdgeLocation)
    : M unit :=
  let! s := get in
  let! history := deref (_history s) in
  match location with
  | top =>
      let (value, history') := ConsoleHistory.back history in
      modify (set_history (Some history')) >>
      write_child editor (onEdgeRequest_back_then value)
  | bottom =>
      let (value, history') := ConsoleHistory.forward history in
      modify (set_history (Some history')) >>
      write_child editor (onEdgeRequest_forward_then value)
  end.

(** [onCompletionSelect]. [createPatch] is a method of the completion
    model (../completion), taken as a parameter: from the model and the
    selected value it gives the text and the cursor position of the patch,
    or nothing. The patch goes to the document of [this.prompt]. *)
Definition onCompletionSelect
    (createPatch : CompletionModel.t -> list N -> option (list N * Z))
    (value : list N) : M unit :=
  let! s := get in
  match _completion s with
  | Null => throw
  | Object =>
      let patch := createPatch (completion_model s) value in
      let! p := prompt in
      let! i := deref p in
      let! patch := deref patch in
      write_child i
        (fun doc => Cell.setCursor patch.2 (Cell.setValue patch.1 doc))
  end.

(** Running the continuation of a request with the way its promise
    settled. Only [execute] registers a rejection handler; a reply of the
    wrong kind for the request does not occur. *)
Definition resume (r : Request) (o : Settlement) : M unit :=
  match r, o with
  | KernelInfo, KernelInfoReply banner mimetype =>
      initialize_then banner mimetype
  | Execute _, ExecuteReply => newPrompt
  | Execute _, Rejected => newPrompt
  | Inspect _ _ _ pendingInspect change, InspectReply value =>
      updateTooltip_then pendingInspect change value
  | Complete _ _ pendingComplete change, CompleteReply value =>
      onCompletionRequest_then pendingComplete value >>
      onCompletionRequest_then_then change
  | _, _ => ret tt
  end.

(** The promise of the [k]-th pending request settles. *)
Definition settle (k : nat) (o : Settlement) : M unit :=
  let! s := get in
  match pending s !! k with
  | None => ret tt
  | Some r =>
      modify (set_pending (delete k (pending s))) >>
      resume r o
  end.

(** The handler of [session.kernelChanged]; the session already points at
    the new kernel. *)
Definition onKernelChanged (k : nat) : M unit :=
  modify (set_kernel k) >>
  clear >>
  newPrompt >>
  initialize >>
  modify (set_history (Some (createHistory k))).

(** The field initialisers of the class, then the constructor. *)
Definition fresh (session_kernel : nat) (window : Z * Z) : t :=
  {| isDisposed := false; layout := Some []; kernel := session_kernel;
     _completion := Null; completion_model := createCompletion;
     _mimetype := Js.js "text/x-ipython"; _tooltip := None;
     _history := None; _pendingComplete := 0; _pendingInspect := 0;
     pending := []; innerHeight := fst window; innerWidth := snd window |}.

Definition constructor : M unit :=
  let! s := get in
  modify (set_history (Some (createHistory (kernel s)))) >>
  modify (set_completion Object) >>
  modify (set_tooltip (Some createTooltip)) >>
  addChild (Cell.set_readOnly true (Cell.addClass BANNER_CLASS createBanner)) >>
  initialize >>
  newPrompt.

Definition new (session_kernel : nat) (window : Z * Z) : Outcome t unit :=
  constructor (fresh session_kernel window).

End ConsoleWidget.

(** * The vocabulary of the properties *)

Import ConsoleWidget.
Local Open Scope console_scope.

(** A bundle whose console-text entry is present and empty. *)
Definition empty_console_text_bundle : MimeBundle.t :=
  <[Private.consoleMime := Js.Str []]>
    (<[Private.textMime := Js.Str (Js.js "int")]> ∅).

(** A console as the constructor leaves it: the banner and a live prompt. *)
Definition console0 : t :=
  Eval vm_compute in final_state (new 1%nat (600, 800)).

(** The user types [text] in the live prompt. *)
Definition type_text (text : list N) : M unit :=
  let! p := prompt in
  match p with
  | Some i => write_child i (Cell.set_source text)
  | None => ret tt
  end.

(** A call of [execute] whose promise is then fulfilled. *)
Definition execute_fulfilled : M unit :=
  execute >>
  let! s := get in
  settle (Nat.pred (length (pending s))) ExecuteReply.

(** The console after [a = 1] was typed and executed: the banner, one
    committed entry and a live prompt; the history holds [a = 1]. *)
Definition console1 : t :=
  Eval vm_compute in
  final_state ((type_text (Js.js "a = 1") >> execute_fulfilled) console0).

(** The console after a second command, [b = 2]. *)
Definition console2 : t :=
  Eval vm_compute in
  final_state ((type_text (Js.js "b = 2") >> execute_fulfilled) console1).

(** The children of the layout, and the history, of a live console. *)
Definition children_of (s : t) : list Cell.t := default [] (layout s).

Definition history_of (s : t) : ConsoleHistory.t :=
  default (createHistory 0) (_history s).

(** The prompt that [newPrompt] adds to these consoles, and their banner. *)
Definition live_prompt : Cell.t :=
  Eval vm_compute in
  Cell.set_connected true
    (Cell.set_mimetype (Js.js "text/x-ipython") createPrompt).

(** An executed prompt, as [execute] and [newPrompt] leave it. *)
Definition committed_prompt (text : list N) : Cell.t :=
  Cell.set_connected false
    (Cell.set_readOnly true
       (Cell.set_trusted true (Cell.set_source text live_prompt))).

Definition banner0 : Cell.t :=
  Cell.set_readOnly true (Cell.addClass BANNER_CLASS createBanner).

(** What [newPrompt] does to the previous prompt, and the prompt it adds. *)
Definition commit (w : Cell.t) : Cell.t :=
  Cell.set_connected false (Cell.set_readOnly true w).

Definition fresh_prompt (mimetype : list N) : Cell.t :=
  Cell.set_connected true (Cell.set_mimetype mimetype createPrompt).

(** The number of cells that the loop of [clear] takes out when it starts
    at index [i] on [n] children: the index goes up while the bound comes
    down, so they meet half way. *)
Definition cleared (i : Z) (n : nat) : nat :=
  Z.to_nat ((Z.of_nat n - 1 - i) / 2).

(** The state in which [execute] leaves [s]: the live prompt is trusted, its
    text is the newest item of the history, and the request is on its way. *)
Definition executing (s : t) (init : list Cell.t) (live : Cell.t)
    (history : ConsoleHistory.t) : t :=
  set_pending (pending s ++ [Execute (Cell.source live)])
    (set_history (Some (ConsoleHistory.push (Cell.source live) history))
       (set_layout (Some (init ++ [Cell.set_trusted true live])) s)).

(** The state once the promise of that request has settled. *)
Definition executed (s : t) (init : list Cell.t) (live : Cell.t)
    (history : ConsoleHistory.t) : t :=
  set_layout
    (Some (init ++ [commit (Cell.set_trusted true live);
                    fresh_prompt (_mimetype s)]))
    (set_history (Some (ConsoleHistory.push (Cell.source live) history)) s).

(** [console1] with [b = 2] typed in the live prompt. *)
Definition console1_typing : t :=
  Eval vm_compute in final_state (type_text (Js.js "b = 2") console1).

(** The banner comes first, the live prompt last; the banner and every entry
    between them are read-only, the live prompt is not. *)
Definition lifecycle_invariant (s : t) : Prop :=
  exists banner committed live,
    layout s = Some (banner :: committed ++ [live])
    /\ Cell.kind banner = Cell.Raw
    /\ Cell.readOnly banner = true
    /\ Forall (fun w => Cell.readOnly w = true) committed
    /\ Cell.readOnly live = false.

(** The number of entries that can be edited. *)
Definition editable_entries (s : t) : nat :=
  length (List.filter (fun w => negb (Cell.readOnly w)) (children_of s)).

(** The operations on the prompts; an execution is a call of [execute]
    followed by the settlement of its promise. *)
Inductive Operation : Type :=
| NewPrompt
| Clear
| ExecuteCompleted (fulfilled : bool).

Definition perform (op : Operation) : M unit :=
  match op with
  | NewPrompt => newPrompt
  | Clear => clear
  | ExecuteCompleted fulfilled =>
      execute >>
      let! s := get in
      settle (Nat.pred (length (pending s)))
             (if fulfilled then ExecuteReply else Rejected)
  end.

Fixpoint perform_all (ops : list Operation) : M unit :=
  match ops with
  | [] => ret tt
  | op :: ops => perform op >> perform_all ops
  end.

(** The invariant that the operations keep: the lifecycle invariant, and a
    history to push on. *)
Definition operable (s : t) : Prop :=
  lifecycle_invariant s /\ is_Some (_history s).

(** The character before the cursor is white space, or there is none. *)
Definition whitespace_or_absent (c : option N) : Prop :=
  match c with
  | Some c => Js.is_whitespace c = true
  | None => True
  end.

(** What the handler of a text change resets. *)
Definition reset_completion (tooltip : ConsoleTooltip.t) (s : t) : t :=
  set_completion_model
    (CompletionModel.set_cursor None
       (CompletionModel.set_original None
          (CompletionModel.set_options None (completion_model s))))
    (set_tooltip (Some (ConsoleTooltip.hide tooltip)) s).

(** The completion request after [pri] was typed, and a reply to it. *)
Definition request_pri : ICompletionRequest.t :=
  {| ICompletionRequest.currentValue := Js.js "pri";
     ICompletionRequest.line := 0;
     ICompletionRequest.ch := 3 |}.

Definition reply_print : ICompleteReply.t :=
  {| ICompleteReply.status := ok;
     ICompleteReply.matches := [Js.js "print"];
     ICompleteReply.cursor_start := 0;
     ICompleteReply.cursor_end := 3 |}.

(** A console whose completion model is populated: [pri] was typed, a
    completion was requested, and the kernel answered with [print]. *)
Definition console_completing : t :=
  Eval vm_compute in
  final_state ((type_text (Js.js "pri") >>
                onCompletionRequest request_pri >>
                settle 1 (CompleteReply reply_print)) console0).

(** The user types a space after [pri]. *)
Definition change_space : ITextChange.t :=
  {| ITextChange.newValue := Js.js "pri ";
     ITextChange.line := 0;
     ITextChange.ch := 4;
     ITextChange.coords_top := 20;
     ITextChange.coords_left := 32;
     ITextChange.chHeight := 16 |}.

(** The replies of a batch, each with the number and the change that its
    continuation closed over, delivered in the order of the list. *)
Fixpoint deliver_inspect_replies
    (replies : list (N * ITextChange.t * IInspectReply.t)) : M unit :=
  match replies with
  | [] => ret tt
  | (n, change, value) :: replies =>
      fun s =>
        deliver_inspect_replies replies
          (final_state (updateTooltip_then n change value s))
  end.

(** The text change that leaves [text] on the first line, with the cursor
    at its end. *)
Definition change_at (text : list N) : ITextChange.t :=
  {| ITextChange.newValue := text;
     ITextChange.line := 0;
     ITextChange.ch := Z.of_nat (length text);
     ITextChange.coords_top := 20;
     ITextChange.coords_left := 8 * Z.of_nat (length text);
     ITextChange.chHeight := 16 |}.

(** An inspect reply that found [text] as plain text. *)
Definition found_reply (text : list N) : IInspectReply.t :=
  {| IInspectReply.status := ok;
     IInspectReply.found := true;
     IInspectReply.data := <[Private.textMime := Js.Str text]> ∅ |}.

(** The console after [p], [r] and [i] were typed: three inspect requests
    are pending, numbered 1, 2 and 3. *)
Definition console_inspecting : t :=
  Eval vm_compute in
  final_state ((onTextChange (change_at (Js.js "p")) >>
                onTextChange (change_at (Js.js "pr")) >>
                onTextChange (change_at (Js.js "pri"))) console0).

(** A second request, after [n] was typed; a reply that failed, and one
    that did not. *)
Definition request_prin : ICompletionRequest.t :=
  {| ICompletionRequest.currentValue := Js.js "prin";
     ICompletionRequest.line := 0;
     ICompletionRequest.ch := 4 |}.

Definition reply_error : ICompleteReply.t :=
  {| ICompleteReply.status := Js.js "error";
     ICompleteReply.matches := [];
     ICompleteReply.cursor_start := 0;
     ICompleteReply.cursor_end := 0 |}.

Definition reply_println : ICompleteReply.t :=
  {| ICompleteReply.status := ok;
     ICompleteReply.matches := [Js.js "println"];
     ICompleteReply.cursor_start := 0;
     ICompleteReply.cursor_end := 4 |}.

(** What the editors, the kernel and the session can make the console do:
    the three signals of an editor, the selection of a completion, the
    settlement of the [k]-th pending request, a change of kernel, and the
    calls of the public methods other than [dispose]. *)
Inductive Event : Type :=
| TextChanged (change : ITextChange.t)
| CompletionRequested (change : ICompletionRequest.t)
| EdgeRequested (editor : nat) (location : EdgeLocation)
| CompletionSelected
    (createPatch : CompletionModel.t -> list N -> option (list N * Z))
    (value : list N)
| Settled (k : nat) (o : Settlement)
| KernelChanged (k : nat)
| ExecuteCalled
| ClearCalled
| NewPromptCalled.

Definition handle (e : Event) : M unit :=
  match e with
  | TextChanged change => onTextChange change
  | CompletionRequested change => onCompletionRequest change
  | EdgeRequested editor location => onEdgeRequest editor location
  | CompletionSelected createPatch value =>
      onCompletionSelect createPatch value
  | Settled k o => settle k o
  | KernelChanged k => onKernelChanged k
  | ExecuteCalled => execute
  | ClearCalled => clear
  | NewPromptCalled => newPrompt
  end.

(** The state after a sequence of events; a handler that throws leaves the
    state it reached. *)
Fixpoint run (events : list Event) (s : t) : t :=
  match events with
  | [] => s
  | e :: events => run events (final_state (handle e s))
  end.

(** A committed entry: read-only, and no signal of its editor reaches the
    console. *)
Definition committed_entry (w : Cell.t) : Prop :=
  Cell.readOnly w = true /\ Cell.connected w = false.

(** A console in use: not disposed, its collaborators in place, and a layout
    made of the banner, committed entries, and one live prompt that is the
    only editable and the only connected child. *)
Definition in_use (s : t) : Prop :=
  isDisposed s = false
  /\ _completion s = Object
  /\ CompletionModel.isDisposed (completion_model s) = false
  /\ is_Some (_tooltip s)
  /\ is_Some (_history s)
  /\ exists banner committed live,
       layout s = Some (banner :: committed ++ [live])
       /\ Cell.kind banner = Cell.Raw
       /\ committed_entry banner
       /\ Forall committed_entry committed
       /\ Cell.readOnly live = false
       /\ Cell.connected live = true.

(** The events whose handler can throw on a console in use: a text change
    whose line index is outside the text, and a selection for which the
    model has no patch. *)
Definition well_formed (e : Event) (s : t) : Prop :=
  match e with
  | TextChanged change =>
      is_Some (Js.index (Js.split_newline (ITextChange.newValue change))
                        (ITextChange.line change))
  | CompletionSelected createPatch value =>
      is_Some (createPatch (completion_model s) value)
  | _ => True
  end.

(** A console that was disposed of: see [dispose]. *)
Definition disposed_of (s : t) : Prop :=
  isDisposed s = true
  /\ layout s = None
  /\ _tooltip s = None
  /\ _history s = None
  /\ _completion s = Null
  /\ CompletionModel.isDisposed (completion_model s) = true.

(** The text of the children, in order. *)
Definition transcript (s : t) : list (list N) :=
  List.map Cell.source (children_of s).

(** A function on cells that keeps the kind and the two flags of the
    lifecycle. *)
Definition keeps_flags (f : Cell.t -> Cell.t) : Prop :=
  forall w, Cell.kind (f w) = Cell.kind w
            /\ Cell.readOnly (f w) = Cell.readOnly w
            /\ Cell.connected (f w) = Cell.connected w.

(** A method that, on a console in use, returns and leaves a console in
    use. *)
Definition advances (m : M unit) : Prop :=
  forall s, in_use s -> exists s', m s = Returned tt s' /\ in_use s'.

(** [console1] after [dispose]. *)
Definition console_disposed : t :=
  Eval vm_compute in final_state (dispose console1).

(** The events of the auxiliary services: text changes, completion
    requests, and settlements with an inspect or a complete reply. *)
Definition auxiliary (e : Event) : Prop :=
  match e with
  | TextChanged _ | CompletionRequested _ => True
  | Settled _ (InspectReply _) | Settled _ (CompleteReply _) => True
  | _ => False
  end.

(** * Properties *)

(** Unfolds the monad: a method applied to a state becomes a term of
    [Outcome]. *)
Ltac run_console :=
  repeat (unfold bind, ret, get, modify, throw, deref, get_layout,
            write_child, addChild, send, update_model in *;
          cbn beta iota in *).

(** Case analysis on every branch of a handler. *)
Ltac frame_case :=
  repeat (case_match; simplify_eq/=); try done; eauto.

(** ** Normalisation of an inspect reply *)

Section InspectReply.

Lemma consoleMime_neq_textMime : Private.consoleMime <> Private.textMime.
Proof. discriminate. Qed.

Lemma or_or (a b : Js.Value) : Js.or (Js.or a b) b = Js.or a b.
Proof.
  unfold Js.or. destruct (Js.truthy a) eqn:Ha; rewrite ?Ha; [done|].
  by destruct (Js.truthy b).
Qed.

Lemma get_processInspectReply_console (bundle : MimeBundle.t) :
  MimeBundle.get (Private.processInspectReply bundle) Private.consoleMime
  = Js.or (MimeBundle.get bundle Private.consoleMime)
          (MimeBundle.get bundle Private.textMime).
Proof.
  unfold Private.processInspectReply, MimeBundle.get, MimeBundle.set.
  by rewrite lookup_insert_eq.
Qed.

Lemma get_processInspectReply_other (bundle : MimeBundle.t) (key : list N) :
  key <> Private.consoleMime ->
  MimeBundle.get (Private.processInspectReply bundle) key
  = MimeBundle.get bundle key.
Proof.
  intros Hne.
  unfold Private.processInspectReply, MimeBundle.get, MimeBundle.set.
  by rewrite lookup_insert_ne.
Qed.

Lemma processInspectReply_idempotent (bundle : MimeBundle.t) :
  Private.processInspectReply (Private.processInspectReply bundle)
  = Private.processInspectReply bundle.
Proof.
  unfold Private.processInspectReply at 1.
  rewrite get_processInspectReply_console.
  rewrite get_processInspectReply_other
    by (intro H; symmetry in H; exact (consoleMime_neq_textMime H)).
  rewrite or_or.
  unfold Private.processInspectReply, MimeBundle.set.
  apply insert_insert_eq.
Qed.

End InspectReply.

(** C8, as stated, fails: a console-text entry that is present but is the
    empty string is overwritten by the plain-text entry, because [||] takes
    its right operand when the left one is falsy. *)
Lemma processInspectReply_overwrites_empty_entry :
  empty_console_text_bundle !! Private.consoleMime = Some (Js.Str [])
  /\ Private.processInspectReply empty_console_text_bundle
       !! Private.consoleMime = Some (Js.Str (Js.js "int"))
  /\ Private.processInspectReply empty_console_text_bundle
       !! Private.consoleMime
     <> empty_console_text_bundle !! Private.consoleMime.
Proof. vm_compute. repeat split; discriminate. Qed.

(** C8, amended: for every MIME bundle, after the normalisation the
    console-text entry is the previous console-text entry when that one is
    truthy (present and not the empty string) and otherwise is the plain-text
    entry ([undefined] when there is none), every other entry is unchanged,
    and normalising twice gives the same bundle as normalising once. *)
Theorem processInspectReply_spec (bundle : MimeBundle.t) :
  MimeBundle.get (Private.processInspectReply bundle) Private.consoleMime
  = (if Js.truthy (MimeBundle.get bundle Private.consoleMime)
     then MimeBundle.get bundle Private.consoleMime
     else MimeBundle.get bundle Private.textMime)
  /\ delete Private.consoleMime (Private.processInspectReply bundle)
     = delete Private.consoleMime bundle
  /\ Private.processInspectReply (Private.processInspectReply bundle)
     = Private.processInspectReply bundle.
Proof.
  split; [apply get_processInspectReply_console|].
  split; [|apply processInspectReply_idempotent].
  unfold Private.processInspectReply, MimeBundle.set.
  apply delete_insert_eq.
Qed.

(** ** Disposal *)

Section Disposal.

(** A call on a disposed console returns at once. *)
Lemma dispose_disposed (s : t) :
  isDisposed s = true -> dispose s = Returned tt s.
Proof. intros H. unfold dispose. run_console. by rewrite H. Qed.

(** A call that returns leaves the console disposed. *)
Lemma dispose_returned (s s' : t) :
  dispose s = Returned tt s' -> isDisposed s' = true.
Proof.
  unfold dispose, super_dispose. run_console.
  destruct (isDisposed s) eqn:Hd; [by intros [= <-]|].
  destruct (_tooltip s); [|discriminate]. cbn.
  destruct (_history s); [|discriminate]. cbn.
  destruct (_completion s); [discriminate|]. cbn.
  rewrite Hd. by intros [= <-].
Qed.

(** A live console, with its three collaborators in place, is disposed of
    without an error. *)
Lemma dispose_live (s : t) tooltip history :
  isDisposed s = false ->
  _tooltip s = Some tooltip ->
  _history s = Some history ->
  _completion s = Object ->
  exists s', dispose s = Returned tt s'
             /\ isDisposed s' = true /\ layout s' = None
             /\ _tooltip s' = None /\ _history s' = None
             /\ _completion s' = Null
             /\ CompletionModel.isDisposed (completion_model s') = true.
Proof.
  intros Hd Ht Hh Hc. unfold dispose, super_dispose. run_console.
  rewrite Hd, Ht, Hh, Hc. cbn. rewrite Hd. eexists. split; [reflexivity|].
  cbn. repeat split.
Qed.

End Disposal.

(** C10: a call of [dispose] on a disposed console returns without an error
    and leaves the state as it is; so for every state, whatever a first call
    returns, a second call returns the same state, and two calls in a row
    end like one. *)
Theorem dispose_idempotent (s : t) :
  (isDisposed s = true -> dispose s = Returned tt s)
  /\ (forall s', dispose s = Returned tt s' -> dispose s' = Returned tt s')
  /\ (dispose >> dispose) s = dispose s.
Proof.
  split; [apply dispose_disposed|].
  assert (Hsecond : forall s', dispose s = Returned tt s' ->
                               dispose s' = Returned tt s').
  { intros s' H. apply dispose_disposed. exact (dispose_returned _ _ H). }
  split; [exact Hsecond|].
  unfold bind at 1. destruct (dispose s) as [[] s'|s'] eqn:H; [|reflexivity].
  by apply Hsecond.
Qed.

(** ** Edge requests *)

Section EdgeRequests.

(** What the continuation of [back()] does with the value. *)
Lemma onEdgeRequest_back_then_spec (value : Js.Value) (doc : Cell.t) :
  match value with
  | Js.Str (c :: text) =>
      Cell.source (onEdgeRequest_back_then value doc) = c :: text
      /\ Cell.cursor (onEdgeRequest_back_then value doc) = 0
  | _ => onEdgeRequest_back_then value doc = doc
  end.
Proof.
  destruct value as [|[|c text]]; try reflexivity.
  split; [reflexivity|]. cbn. lia.
Qed.

(** What the continuation of [forward()] does with the value. *)
Lemma onEdgeRequest_forward_then_spec (value : Js.Value) (doc : Cell.t) :
  let text := match value with Js.Str text => text | Js.Undefined => [] end in
  Cell.source (onEdgeRequest_forward_then value doc) = text
  /\ Cell.cursor (onEdgeRequest_forward_then value doc)
     = Z.of_nat (length text).
Proof.
  destruct value as [|[|c text]]; cbn; (split; [reflexivity|lia]).
Qed.

Lemma write_child_lookup (s : t) (children : list Cell.t) (i : nat)
    (w : Cell.t) (f : Cell.t -> Cell.t) :
  layout s = Some children -> children !! i = Some w ->
  write_child i f s = Returned tt (set_layout (Some (<[i := f w]> children)) s).
Proof.
  intros Hl Hw. unfold write_child. run_console. rewrite Hl. cbn.
  do 3 f_equal. apply list_eq. intros j.
  destruct (decide (i = j)) as [<-|Hne].
  - rewrite list_lookup_alter_eq, Hw. cbn.
    rewrite list_lookup_insert_eq; [done|]. by eapply lookup_lt_Some.
  - by rewrite list_lookup_alter_ne, list_lookup_insert_ne.
Qed.

End EdgeRequests.

(** C9: an edge request at the top calls [back()] on the history; a
    non-empty value replaces the text of the editor's document and puts the
    cursor at offset 0, an empty or absent value leaves the document as it
    is. An edge request at the bottom calls [forward()]; the document's text
    becomes the value (the empty string when there is none) and the cursor is
    at the end of that text. *)
Theorem onEdgeRequest_spec (s : t) (history : ConsoleHistory.t)
    (children : list Cell.t) (editor : nat) (doc : Cell.t)
    (location : EdgeLocation) :
  _history s = Some history ->
  layout s = Some children ->
  children !! editor = Some doc ->
  match location with
  | top =>
      exists doc',
        onEdgeRequest editor top s
        = Returned tt
            (set_layout (Some (<[editor := doc']> children))
               (set_history (Some (ConsoleHistory.back history).2) s))
        /\ match (ConsoleHistory.back history).1 with
           | Js.Str (c :: text) =>
               Cell.source doc' = c :: text /\ Cell.cursor doc' = 0
           | _ => doc' = doc
           end
  | bottom =>
      exists doc',
        onEdgeRequest editor bottom s
        = Returned tt
            (set_layout (Some (<[editor := doc']> children))
               (set_history (Some (ConsoleHistory.forward history).2) s))
        /\ let text :=
             match (ConsoleHistory.forward history).1 with
             | Js.Str text => text
             | Js.Undefined => []
             end in
           Cell.source doc' = text
           /\ Cell.cursor doc' = Z.of_nat (length text)
  end.
Proof.
  intros Hh Hl Hdoc. destruct location.
  - exists (onEdgeRequest_back_then (ConsoleHistory.back history).1 doc).
    split; [|apply onEdgeRequest_back_then_spec].
    unfold onEdgeRequest. unfold bind at 1, get. unfold bind at 1.
    rewrite Hh. cbn [deref ret].
    destruct (ConsoleHistory.back history) as [value history'].
    unfold bind, modify. cbn [fst snd].
    by rewrite (write_child_lookup _ children editor doc).
  - exists (onEdgeRequest_forward_then (ConsoleHistory.forward history).1 doc).
    split; [|apply onEdgeRequest_forward_then_spec].
    unfold onEdgeRequest. unfold bind at 1, get. unfold bind at 1.
    rewrite Hh. cbn [deref ret].
    destruct (ConsoleHistory.forward history) as [value history'].
    unfold bind, modify. cbn [fst snd].
    by rewrite (write_child_lookup _ children editor doc).
Qed.

(** ** Sample consoles *)

Example console1_layout :
  List.map (fun w => (Cell.source w, Cell.readOnly w)) (children_of console1)
  = [([], true); (Js.js "a = 1", true); ([], false)].
Proof. reflexivity. Qed.

Example console1_history :
  ConsoleHistory.items (history_of console1) = [Js.js "a = 1"]
  /\ ConsoleHistory.cursor (history_of console1) = 1%nat.
Proof. split; reflexivity. Qed.

(** The history round trip of the specification: after [a] and [b] were
    pushed, going back gives [b], then [a], then nothing; going forward
    gives [b], then the empty string. *)
Example history_round_trip :
  let h0 := ConsoleHistory.push (Js.js "b")
              (ConsoleHistory.push (Js.js "a") (ConsoleHistory.create 0)) in
  let '(v1, h1) := ConsoleHistory.back h0 in
  let '(v2, h2) := ConsoleHistory.back h1 in
  let '(v3, h3) := ConsoleHistory.back h2 in
  let '(v4, h4) := ConsoleHistory.forward h3 in
  let '(v5, h5) := ConsoleHistory.forward h4 in
  [v1; v2; v3; v4; v5]
  = [Js.Str (Js.js "b"); Js.Str (Js.js "a"); Js.Undefined;
     Js.Str (Js.js "b"); Js.Str []].
Proof. reflexivity. Qed.

(** C9 at [console1]: an edge request at the top of the live prompt recalls
    [a = 1] and puts the cursor at the start. *)
Lemma onEdgeRequest_spec_witness :
  exists doc',
    onEdgeRequest 2 top console1
    = Returned tt
        (set_layout (Some (<[2%nat := doc']> (children_of console1)))
           (set_history
              (Some (ConsoleHistory.back (history_of console1)).2) console1))
    /\ Cell.source doc' = Js.js "a = 1" /\ Cell.cursor doc' = 0.
Proof.
  exact (onEdgeRequest_spec console1 (history_of console1)
           (children_of console1) 2 live_prompt top
           eq_refl eq_refl eq_refl).
Defined.

(** ** The prompt lifecycle *)

Section Lifecycle.

Lemma set_layout_id (s : t) (children : list Cell.t) :
  layout s = Some children -> set_layout (Some children) s = s.
Proof. destruct s; cbn; intros ->; reflexivity. Qed.

Lemma set_layout_set_layout (s : t) (a b : option (list Cell.t)) :
  set_layout a (set_layout b s) = set_layout a s.
Proof. reflexivity. Qed.

Lemma prompt_last (s : t) (init : list Cell.t) (w : Cell.t) :
  layout s = Some (init ++ [w]) ->
  prompt s = Returned (Some (length init)) s.
Proof.
  intros Hl. unfold prompt, childCount. run_console. rewrite Hl. cbn.
  rewrite length_app. cbn [length].
  destruct (Z.ltb_spec (-1) (Z.of_nat (length init + 1) - 1)); [|lia].
  do 2 f_equal. lia.
Qed.

Lemma prompt_empty (s : t) :
  layout s = Some [] -> prompt s = Returned None s.
Proof. intros Hl. unfold prompt, childCount. run_console. by rewrite Hl. Qed.

Lemma alter_last (f : Cell.t -> Cell.t) (init : list Cell.t) (w : Cell.t) :
  alter f (length init) (init ++ [w]) = init ++ [f w].
Proof.
  rewrite alter_app_r_alt by lia. by rewrite Nat.sub_diag.
Qed.

(** [newPrompt] on a layout with a last child: that child becomes read-only
    and loses its connections, and a fresh prompt with the console's
    mimetype follows it. *)
Lemma newPrompt_last (s : t) (init : list Cell.t) (w : Cell.t) :
  layout s = Some (init ++ [w]) ->
  newPrompt s
  = Returned tt
      (set_layout (Some (init ++ [commit w; fresh_prompt (_mimetype s)])) s).
Proof.
  intros Hl. unfold newPrompt. unfold bind at 1.
  rewrite (prompt_last s init w Hl). run_console.
  rewrite Hl. cbn. rewrite alter_last.
  by rewrite <- app_assoc.
Qed.

Lemma newPrompt_empty (s : t) :
  layout s = Some [] ->
  newPrompt s
  = Returned tt (set_layout (Some [fresh_prompt (_mimetype s)]) s).
Proof.
  intros Hl. unfold newPrompt. unfold bind at 1.
  rewrite (prompt_empty s Hl). run_console. by rewrite Hl.
Qed.

Lemma newPrompt_disposed (s : t) :
  layout s = None -> newPrompt s = Thrown s.
Proof.
  intros Hl. unfold newPrompt, prompt. run_console. by rewrite Hl.
Qed.

End Lifecycle.

(** ** Serialisation *)

Section Serialize.

Context {R : Type} (toJSON : Cell.t -> R).

(** The loop pushes the record of every child from position [i] on. *)
Lemma serialize_loop_spec (fuel : nat) :
  forall (i : Z) (output : list R) (s : t) (children : list Cell.t),
    layout s = Some children ->
    0 <= i ->
    Z.of_nat (length children) - i <= Z.of_nat fuel ->
    serialize_loop toJSON fuel i output s
    = Returned (output ++ List.map toJSON (drop (Z.to_nat i) children)) s.
Proof.
  induction fuel as [|fuel IH]; intros i output s children Hl Hi Hfuel.
  - cbn. unfold ret. rewrite drop_ge by lia. by rewrite app_nil_r.
  - cbn [serialize_loop]. run_console. rewrite Hl. cbn.
    unfold childCount.
    destruct (Z.ltb_spec i (Z.of_nat (length children))) as [Hlt|Hge].
    + unfold Js.index. destruct (Z.ltb_spec i 0); [lia|].
      destruct (children !! Z.to_nat i) as [w|] eqn:Hw.
      2:{ apply lookup_ge_None in Hw. lia. }
      cbn. rewrite (IH (i + 1) _ s children Hl) by lia.
      rewrite (drop_S _ _ _ Hw).
      replace (Z.to_nat (i + 1)) with (S (Z.to_nat i)) by lia.
      by rewrite <- app_assoc.
    + rewrite drop_ge by lia. by rewrite app_nil_r.
Qed.

(** [serialize] returns the records of the children after the first, in
    order, and throws when the layout is gone. *)
Lemma serialize_spec (s : t) :
  serialize toJSON s
  = match layout s with
    | Some children => Returned (List.map toJSON (drop 1 children)) s
    | None => Thrown s
    end.
Proof.
  unfold serialize. run_console.
  destruct (layout s) as [children|] eqn:Hl; [|reflexivity]. cbn.
  by rewrite (serialize_loop_spec _ 1 [] s children Hl) by lia.
Qed.

End Serialize.

(** C3, as stated, fails: on the console that the constructor leaves (the
    banner, no committed entry, one live prompt) [serialize] returns the
    record of the live prompt, not the empty sequence. *)
Lemma serialize_includes_live_prompt :
  layout console0 = Some ([banner0] ++ [] ++ [live_prompt])
  /\ serialize (fun w => w) console0 = Returned [live_prompt] console0
  /\ [live_prompt] <> List.map (fun w : Cell.t => w) [].
Proof. split; [reflexivity|]. split; [reflexivity|discriminate]. Qed.

(** C3, amended: for every console state with a banner, any number of
    committed entries and one live entry, [serialize] returns the records of
    all entries after the banner in order, the committed ones and then the
    live one, and leaves the state as it is. *)
Theorem serialize_all_prompts {R : Type} (toJSON : Cell.t -> R) (s : t)
    (banner : Cell.t) (committed : list Cell.t) (live : Cell.t) :
  layout s = Some (banner :: committed ++ [live]) ->
  serialize toJSON s
  = Returned (List.map toJSON committed ++ [toJSON live]) s.
Proof.
  intros Hl. rewrite serialize_spec, Hl.
  change (drop 1 (banner :: committed ++ [live])) with (committed ++ [live]).
  by rewrite List.map_app.
Qed.

Lemma serialize_all_prompts_witness :
  serialize Cell.source console2
  = Returned ([Js.js "a = 1"; Js.js "b = 2"] ++ [[]]) console2.
Proof.
  exact (serialize_all_prompts Cell.source console2 banner0
           [committed_prompt (Js.js "a = 1"); committed_prompt (Js.js "b = 2")]
           live_prompt eq_refl).
Defined.

(** ** Clearing *)

Section Clear.

Lemma cleared_step (i : Z) (n : nat) :
  0 <= i -> i < Z.of_nat (S n) - 2 -> cleared i (S n) = S (cleared (i + 1) n).
Proof.
  intros Hi Hlt. unfold cleared.
  replace (Z.of_nat (S n) - 1 - i) with ((Z.of_nat n - 1 - (i + 1)) + 1 * 2)
    by lia.
  rewrite Z.div_add by lia.
  assert (0 <= (Z.of_nat n - 1 - (i + 1)) / 2) by (apply Z.div_pos; lia).
  lia.
Qed.

Lemma cleared_stop (i : Z) (n : nat) :
  0 <= i -> Z.of_nat n - 2 <= i -> cleared i n = 0%nat.
Proof.
  intros Hi Hge. unfold cleared.
  destruct (Z.le_gt_cases (Z.of_nat n - 1 - i) 0) as [Hneg|Hpos].
  - assert ((Z.of_nat n - 1 - i) / 2 <= 0).
    { apply Z.div_le_upper_bound; lia. }
    lia.
  - replace (Z.of_nat n - 1 - i) with 1 by lia. reflexivity.
Qed.

(** The loop of [clear] on a layout with a first child: that child stays,
    and [cleared i n] of the children after it are taken out. *)
Lemma clear_loop_spec (fuel : nat) :
  forall (i : Z) (s : t) (first : Cell.t) (rest : list Cell.t),
    layout s = Some (first :: rest) ->
    0 <= i ->
    (length rest <= fuel)%nat ->
    clear_loop fuel i s
    = Returned tt
        (set_layout
           (Some (first :: drop (cleared i (S (length rest))) rest)) s).
Proof.
  induction fuel as [|fuel IH]; intros i s first rest Hl Hi Hfuel.
  - destruct rest; [|cbn in Hfuel; lia]. cbn [clear_loop]. unfold ret.
    by rewrite drop_nil, set_layout_id.
  - cbn [clear_loop]. run_console. rewrite Hl. unfold childCount.
    destruct (Z.ltb_spec i (Z.of_nat (length (first :: rest)) - 2))
      as [Hlt|Hge].
    + destruct rest as [|w rest]; [cbn in Hlt; lia|].
      cbn [lookup list_lookup delete list_delete].
      rewrite (IH (i + 1) _ first rest) by (cbn in *; try reflexivity; lia).
      rewrite set_layout_set_layout. cbn [length].
      rewrite (cleared_step i (S (length rest))) by (cbn [length] in Hlt; lia).
      reflexivity.
    + rewrite cleared_stop by (cbn [length] in Hge; lia).
      by rewrite set_layout_id.
Qed.

(** [clear] on a console with a banner, committed entries and a live
    prompt: the first half of the committed entries (rounded up) is taken
    out, the rest stays, and [newPrompt] commits the live prompt and adds a
    fresh one. *)
Lemma clear_spec (s : t) (banner : Cell.t) (committed : list Cell.t)
    (live : Cell.t) :
  layout s = Some (banner :: committed ++ [live]) ->
  clear s
  = Returned tt
      (set_layout
         (Some (banner :: drop ((length committed + 1) / 2) committed
                  ++ [commit live; fresh_prompt (_mimetype s)])) s).
Proof.
  intros Hl. unfold clear. unfold bind at 1. unfold get_layout.
  unfold bind at 1. unfold get, deref. rewrite Hl. unfold ret.
  unfold bind.
  rewrite (clear_loop_spec _ 0 s banner (committed ++ [live]) Hl)
    by (cbn [length]; lia).
  set (k := cleared 0 (S (length (committed ++ [live])))).
  assert (Hk : k = ((length committed + 1) / 2)%nat).
  { subst k. unfold cleared. rewrite length_app. cbn [length].
    replace (Z.of_nat (S (length committed + 1)) - 1 - 0)
      with (Z.of_nat (length committed + 1)) by lia.
    change 2 with (Z.of_nat 2). rewrite <- Nat2Z.inj_div.
    apply Nat2Z.id. }
  assert (Hle : (k <= length committed)%nat).
  { rewrite Hk.
    assert ((length committed + 1) / 2 < length committed + 1)%nat; [|lia].
    apply Nat.Div0.div_lt_upper_bound. lia. }
  rewrite drop_app_le by exact Hle.
  rewrite (newPrompt_last _ (banner :: drop k committed) live)
    by reflexivity.
  by rewrite Hk.
Qed.

End Clear.

(** C4 fails on the code: on the console with two committed entries,
    [clear] takes out the first of them only. The console is left with the
    banner, the second committed entry, the previous live prompt (now
    committed) and the fresh prompt, instead of the banner, the previous
    live prompt and the fresh prompt. *)
Theorem clear_leaves_committed_entries :
  layout console2
  = Some (banner0
          :: [committed_prompt (Js.js "a = 1");
              committed_prompt (Js.js "b = 2")] ++ [live_prompt])
  /\ clear console2
     = Returned tt
         (set_layout
            (Some [banner0; committed_prompt (Js.js "b = 2");
                   commit live_prompt; live_prompt]) console2).
Proof. split; reflexivity. Qed.

(** ** Execution *)

Section Execution.

Lemma execute_spec (s : t) (init : list Cell.t) (live : Cell.t)
    (history : ConsoleHistory.t) :
  layout s = Some (init ++ [live]) ->
  _history s = Some history ->
  execute s = Returned tt (executing s init live history).
Proof.
  intros Hl Hh. unfold execute. unfold bind at 1.
  rewrite (prompt_last s init live Hl). run_console.
  rewrite Hl. cbn. rewrite Hh. cbn. rewrite alter_last.
  rewrite lookup_app_r by lia. rewrite Nat.sub_diag. reflexivity.
Qed.

(** Both continuations of [prompt.execute(...)] are [newPrompt]. *)
Lemma resume_execute (code : list N) (s : t) :
  resume (Execute code) ExecuteReply s = newPrompt s
  /\ resume (Execute code) Rejected s = newPrompt s.
Proof. split; reflexivity. Qed.

Lemma settle_last (s : t) (r : Request) (o : Settlement) :
  settle (length (pending s)) o (set_pending (pending s ++ [r]) s)
  = resume r o s.
Proof.
  unfold settle. run_console. cbn.
  rewrite lookup_app_r by lia. rewrite Nat.sub_diag. cbn.
  rewrite delete_middle, app_nil_r.
  destruct s; reflexivity.
Qed.

Lemma settle_executing (s : t) (init : list Cell.t) (live : Cell.t)
    (history : ConsoleHistory.t) (o : Settlement) :
  o = ExecuteReply \/ o = Rejected ->
  settle (length (pending s)) o (executing s init live history)
  = Returned tt (executed s init live history).
Proof.
  intros Ho. unfold executing.
  set (s1 := set_history _ _).
  change (pending s) with (pending s1).
  rewrite settle_last.
  replace (resume (Execute (Cell.source live)) o s1) with (newPrompt s1)
    by (destruct Ho as [-> | ->]; reflexivity).
  by rewrite (newPrompt_last s1 init (Cell.set_trusted true live)).
Qed.

End Execution.

(** C5: [execute] marks the live prompt trusted, pushes its text on the
    history and sends it to the kernel; whether the promise is then
    fulfilled or rejected, the continuation is [newPrompt], so the executed
    entry is read-only (and still trusted) and a fresh live prompt follows
    it. *)
Theorem execute_always_advances (s : t) (init : list Cell.t) (live : Cell.t)
    (history : ConsoleHistory.t) :
  layout s = Some (init ++ [live]) ->
  _history s = Some history ->
  execute s = Returned tt (executing s init live history)
  /\ layout (executing s init live history)
     = Some (init ++ [Cell.set_trusted true live])
  /\ _history (executing s init live history)
     = Some (ConsoleHistory.push (Cell.source live) history)
  /\ pending (executing s init live history)
     = pending s ++ [Execute (Cell.source live)]
  /\ settle (length (pending s)) ExecuteReply (executing s init live history)
     = Returned tt (executed s init live history)
  /\ settle (length (pending s)) Rejected (executing s init live history)
     = Returned tt (executed s init live history)
  /\ (exists entry prompt',
        layout (executed s init live history)
        = Some (init ++ [entry; prompt'])
        /\ Cell.source entry = Cell.source live
        /\ Cell.trusted entry = true
        /\ Cell.readOnly entry = true
        /\ Cell.readOnly prompt' = false
        /\ Cell.source prompt' = []).
Proof.
  intros Hl Hh.
  split; [by apply execute_spec|].
  do 3 (split; [reflexivity|]).
  split; [apply settle_executing; by left|].
  split; [apply settle_executing; by right|].
  eexists _, _. split; [reflexivity|]. repeat split.
Qed.

(** C5 at [console1_typing], for a promise that is rejected: the console
    ends with the layout of [console2]. *)
Lemma execute_always_advances_witness :
  execute console1_typing
  = Returned tt
      (executing console1_typing
         [banner0; committed_prompt (Js.js "a = 1")]
         (Cell.set_source (Js.js "b = 2") live_prompt)
         (history_of console1))
  /\ settle 1 Rejected
       (executing console1_typing
          [banner0; committed_prompt (Js.js "a = 1")]
          (Cell.set_source (Js.js "b = 2") live_prompt)
          (history_of console1))
     = Returned tt
         (set_pending [KernelInfo]
            (set_history
               (Some (ConsoleHistory.push (Js.js "b = 2")
                        (history_of console1)))
               console2)).
Proof.
  pose proof (execute_always_advances console1_typing
                [banner0; committed_prompt (Js.js "a = 1")]
                (Cell.set_source (Js.js "b = 2") live_prompt)
                (history_of console1) eq_refl eq_refl) as H.
  split; [exact (proj1 H)|].
  exact (proj1 (proj2 (proj2 (proj2 (proj2 (proj2 H)))))).
Defined.

(** ** The lifecycle invariant *)

Section LifecycleInvariant.

Lemma filter_read_only (ws : list Cell.t) :
  Forall (fun w => Cell.readOnly w = true) ws ->
  List.filter (fun w => negb (Cell.readOnly w)) ws = [].
Proof.
  induction 1 as [|w ws Hw _ IH]; [reflexivity|].
  cbn. by rewrite Hw.
Qed.

Lemma lifecycle_invariant_editable (s : t) :
  lifecycle_invariant s -> editable_entries s = 1%nat.
Proof.
  intros (banner & committed & live & Hl & _ & Hb & Hc & Hlive).
  unfold editable_entries, children_of. rewrite Hl. cbn.
  rewrite Hb. cbn. rewrite List.filter_app, (filter_read_only _ Hc).
  cbn. by rewrite Hlive.
Qed.

Lemma constructor_operable (session_kernel : nat) (window : Z * Z) :
  exists s, new session_kernel window = Returned tt s /\ operable s.
Proof.
  eexists. split; [reflexivity|]. split; [|by eexists].
  exists banner0, [], (fresh_prompt (Js.js "text/x-ipython")).
  repeat split. constructor.
Qed.

Lemma newPrompt_operable (s : t) :
  operable s -> exists s', newPrompt s = Returned tt s' /\ operable s'.
Proof.
  intros [(banner & committed & live & Hl & Hk & Hb & Hc & Hlive) Hh].
  rewrite (newPrompt_last s (banner :: committed) live Hl).
  eexists. split; [reflexivity|]. split; [|exact Hh].
  exists banner, (committed ++ [commit live]), (fresh_prompt (_mimetype s)).
  split; [cbn; by rewrite <- app_assoc|].
  repeat split; [exact Hk|exact Hb|].
  apply Forall_app. split; [exact Hc|]. by constructor.
Qed.

Lemma clear_operable (s : t) :
  operable s -> exists s', clear s = Returned tt s' /\ operable s'.
Proof.
  intros [(banner & committed & live & Hl & Hk & Hb & Hc & Hlive) Hh].
  rewrite (clear_spec s banner committed live Hl).
  eexists. split; [reflexivity|]. split; [|exact Hh].
  exists banner,
    (drop ((length committed + 1) / 2) committed ++ [commit live]),
    (fresh_prompt (_mimetype s)).
  split; [cbn; by rewrite <- app_assoc|].
  repeat split; [exact Hk|exact Hb|].
  apply Forall_app. split; [by apply Forall_drop|]. by constructor.
Qed.

Lemma execute_completed_operable (s : t) (fulfilled : bool) :
  operable s ->
  exists s', perform (ExecuteCompleted fulfilled) s = Returned tt s'
             /\ operable s'.
Proof.
  intros [(banner & committed & live & Hl & Hk & Hb & Hc & Hlive) [h Hh]].
  cbn [perform]. unfold bind at 1.
  rewrite (execute_spec s (banner :: committed) live h Hl Hh).
  unfold bind, get.
  replace (Nat.pred
             (length (pending (executing s (banner :: committed) live h))))
    with (length (pending s))
    by (cbn; rewrite length_app; cbn; lia).
  rewrite settle_executing by (destruct fulfilled; auto).
  eexists. split; [reflexivity|]. split; [|by eexists].
  exists banner, (committed ++ [commit (Cell.set_trusted true live)]),
    (fresh_prompt (_mimetype s)).
  split; [cbn; by rewrite <- app_assoc|].
  repeat split; [exact Hk|exact Hb|].
  apply Forall_app. split; [exact Hc|]. by constructor.
Qed.

Lemma perform_operable (op : Operation) (s : t) :
  operable s -> exists s', perform op s = Returned tt s' /\ operable s'.
Proof.
  destruct op;
    [apply newPrompt_operable|apply clear_operable
    |apply execute_completed_operable].
Qed.

Lemma perform_all_operable (ops : list Operation) :
  forall s, operable s ->
            exists s', perform_all ops s = Returned tt s' /\ operable s'.
Proof.
  induction ops as [|op ops IH]; intros s Hs.
  - exists s. by split.
  - destruct (perform_operable op s Hs) as (s1 & Hop & Hs1).
    destruct (IH s1 Hs1) as (s2 & Hops & Hs2).
    exists s2. split; [|exact Hs2].
    cbn [perform_all]. unfold bind. by rewrite Hop.
Qed.

End LifecycleInvariant.

(** C7: the constructor, followed by any finite sequence of [newPrompt],
    [clear] and completed [execute] operations, returns a console in which
    the banner is first and read-only, every entry before the last is
    read-only, the last entry is not, and so exactly one entry is
    editable. *)
Theorem lifecycle_invariant_holds (session_kernel : nat) (window : Z * Z)
    (ops : list Operation) :
  exists s,
    (constructor >> perform_all ops) (fresh session_kernel window)
    = Returned tt s
    /\ lifecycle_invariant s
    /\ editable_entries s = 1%nat.
Proof.
  destruct (constructor_operable session_kernel window) as (s0 & Hnew & Hs0).
  destruct (perform_all_operable ops s0 Hs0) as (s & Hops & [Hs _]).
  exists s. split; [|split; [exact Hs|by apply lifecycle_invariant_editable]].
  unfold bind. unfold new in Hnew. by rewrite Hnew.
Qed.

(** ** Text changes *)

(** C6: when the character before the cursor is white space or absent, the
    handler of a text change hides the tooltip and sets the options, the
    original request and the cursor range of the completion model to
    [null], whatever they were, and sends no request: the pending requests
    and the two counters are as before. *)
Theorem onTextChange_whitespace (s : t) (change : ITextChange.t)
    (line : list N) (tooltip : ConsoleTooltip.t) :
  _completion s = Object ->
  _tooltip s = Some tooltip ->
  Js.index (Js.split_newline (ITextChange.newValue change))
           (ITextChange.line change) = Some line ->
  whitespace_or_absent (Js.index line (ITextChange.ch change - 1)) ->
  onTextChange change s = Returned tt (reset_completion tooltip s)
  /\ (exists tooltip', _tooltip (reset_completion tooltip s) = Some tooltip'
                       /\ ConsoleTooltip.hidden tooltip' = true)
  /\ CompletionModel.options (completion_model (reset_completion tooltip s))
     = None
  /\ CompletionModel.original (completion_model (reset_completion tooltip s))
     = None
  /\ CompletionModel.cursor (completion_model (reset_completion tooltip s))
     = None
  /\ pending (reset_completion tooltip s) = pending s
  /\ _pendingComplete (reset_completion tooltip s) = _pendingComplete s
  /\ _pendingInspect (reset_completion tooltip s) = _pendingInspect s.
Proof.
  intros Hc Ht Hline Hws.
  split; [|split; [by eexists|repeat split]].
  unfold onTextChange. run_console. rewrite Hc, Hline. cbn.
  assert (Hno : match Js.index line (ITextChange.ch change - 1) with
                | Some c => Js.matches_non_space c
                | None => false
                end = false).
  { destruct (Js.index line (ITextChange.ch change - 1)) as [c|];
      [|reflexivity].
    unfold Js.matches_non_space. cbn in Hws. by rewrite Hws. }
  rewrite Hno, Ht. reflexivity.
Qed.

(** When the text has no line at the index of the change, the handler
    throws on reading a character of [undefined], before any assignment. *)
Lemma onTextChange_no_line (s : t) (change : ITextChange.t) :
  _completion s = Object ->
  Js.index (Js.split_newline (ITextChange.newValue change))
           (ITextChange.line change) = None ->
  onTextChange change s = Thrown s.
Proof.
  intros Hc Hline. unfold onTextChange. run_console.
  by rewrite Hc, Hline.
Qed.

Example console_completing_model :
  completion_model console_completing
  = {| CompletionModel.options := Some [Js.js "print"];
       CompletionModel.original := Some request_pri;
       CompletionModel.cursor := Some (0, 3);
       CompletionModel.current := None;
       CompletionModel.isDisposed := false |}.
Proof. reflexivity. Qed.

(** C6 at a populated completion model. *)
Lemma onTextChange_whitespace_witness :
  onTextChange change_space console_completing
  = Returned tt (reset_completion createTooltip console_completing)
  /\ CompletionModel.options
       (completion_model (reset_completion createTooltip console_completing))
     = None.
Proof.
  pose proof (onTextChange_whitespace console_completing change_space
                (Js.js "pri ") createTooltip
                eq_refl eq_refl eq_refl eq_refl) as H.
  split; [exact (proj1 H)|exact (proj1 (proj2 (proj2 H)))].
Defined.

(** ** Replies to inspect requests *)

Section InspectArbiter.

(** A reply whose number is not the latest is dropped. *)
Lemma updateTooltip_then_stale (n : N) (change : ITextChange.t)
    (value : IInspectReply.t) (s : t) :
  n <> _pendingInspect s ->
  updateTooltip_then n change value s = Returned tt s.
Proof.
  intros Hn. unfold updateTooltip_then. run_console.
  destruct (isDisposed s); [reflexivity|].
  destruct (N.eqb_spec n (_pendingInspect s)); [contradiction|reflexivity].
Qed.

(** So is any reply that reaches a disposed console. *)
Lemma updateTooltip_then_disposed (n : N) (change : ITextChange.t)
    (value : IInspectReply.t) (s : t) :
  isDisposed s = true ->
  updateTooltip_then n change value s = Returned tt s.
Proof. intros Hd. unfold updateTooltip_then. run_console. by rewrite Hd. Qed.

(** And a reply that failed or found nothing. *)
Lemma updateTooltip_then_negative (n : N) (change : ITextChange.t)
    (value : IInspectReply.t) (s : t) :
  IInspectReply.status value <> ok \/ IInspectReply.found value = false ->
  updateTooltip_then n change value s = Returned tt s.
Proof.
  intros Hv. unfold updateTooltip_then. run_console.
  destruct (isDisposed s); [reflexivity|].
  destruct (negb (n =? _pendingInspect s)%N); [reflexivity|].
  destruct Hv as [Hs|Hf].
  - by rewrite bool_decide_eq_false_2.
  - rewrite Hf. by rewrite orb_true_r.
Qed.

(** No reply changes the counter. *)
Lemma updateTooltip_then_counter (n : N) (change : ITextChange.t)
    (value : IInspectReply.t) (s : t) :
  _pendingInspect (final_state (updateTooltip_then n change value s))
  = _pendingInspect s.
Proof.
  unfold updateTooltip_then, showTooltip. run_console.
  destruct (isDisposed s); [reflexivity|].
  destruct (negb (n =? _pendingInspect s)%N); [reflexivity|].
  destruct (_ || _); [reflexivity|].
  destruct (_tooltip s); reflexivity.
Qed.

Lemma deliver_stale_replies
    (replies : list (N * ITextChange.t * IInspectReply.t)) (s : t) :
  Forall (fun r => r.1.1 <> _pendingInspect s) replies ->
  deliver_inspect_replies replies s = Returned tt s.
Proof.
  induction 1 as [|[[n change] value] replies Hn _ IH]; [reflexivity|].
  cbn [deliver_inspect_replies]. cbn in Hn.
  by rewrite updateTooltip_then_stale.
Qed.

(** Of the replies to a batch of requests with distinct numbers, delivered
    in any order, only the reply to the latest request has an effect. *)
Lemma deliver_latest_only
    (before after : list (N * ITextChange.t * IInspectReply.t))
    (change : ITextChange.t) (value : IInspectReply.t) (s : t) :
  Forall (fun r => r.1.1 <> _pendingInspect s) (before ++ after) ->
  deliver_inspect_replies
    (before ++ (_pendingInspect s, change, value) :: after) s
  = Returned tt
      (final_state (updateTooltip_then (_pendingInspect s) change value s)).
Proof.
  intros H. apply Forall_app in H as [Hb Ha].
  induction Hb as [|[[n c] v] before Hn _ IH].
  - cbn [app deliver_inspect_replies].
    apply deliver_stale_replies.
    by rewrite updateTooltip_then_counter.
  - cbn [app deliver_inspect_replies]. cbn in Hn.
    by rewrite updateTooltip_then_stale.
Qed.

(** Issuing a request makes every number issued before it stale, as long as
    the counter is below 2^53. *)
Lemma updateTooltip_issues (change : ITextChange.t) (s : t) :
  (_pendingInspect s < 2 ^ 53)%N ->
  exists code,
    updateTooltip change s
    = Returned tt
        (set_pending
           (pending s ++ [Inspect code (ITextChange.ch change) 0
                            (_pendingInspect s + 1) change])
           (set_pendingInspect (_pendingInspect s + 1) s)).
Proof.
  intros Hlt. eexists. unfold updateTooltip, Js.pre_increment. run_console.
  cbn. destruct (N.ltb_spec (_pendingInspect s) (2 ^ 53)); [reflexivity|lia].
Qed.

End InspectArbiter.

Example console_inspecting_pending :
  List.map (fun r => match r with
                     | Inspect _ _ _ n _ => Some n
                     | _ => None
                     end) (pending console_inspecting)
  = [None; Some 1%N; Some 2%N; Some 3%N].
Proof. reflexivity. Qed.

(** The test of the specification: three requests are issued, the replies
    arrive in the order second, third, first; the tooltip shows the reply to
    the third. *)
Example inspect_replies_out_of_order :
  let s :=
    final_state
      ((settle 2 (InspectReply (found_reply (Js.js "doc of pr"))) >>
        settle 2 (InspectReply (found_reply (Js.js "doc of pri"))) >>
        settle 1 (InspectReply (found_reply (Js.js "doc of p"))))
         console_inspecting) in
  (ConsoleTooltip.content <$> _tooltip s)
  = Some (Some (Private.processInspectReply
                  (IInspectReply.data (found_reply (Js.js "doc of pri")))))
  /\ (ConsoleTooltip.hidden <$> _tooltip s) = Some false
  /\ pending s = [KernelInfo].
Proof. vm_compute. repeat split. Qed.

(** ** Replies to completion requests *)

Section CompletionArbiter.

(** The first continuation does nothing when the model is disposed, when a
    newer request was issued, or when the reply is not ok. *)
Lemma onCompletionRequest_then_dropped (n : N) (value : ICompleteReply.t)
    (s : t) :
  CompletionModel.isDisposed (completion_model s) = true
  \/ n <> _pendingComplete s
  \/ ICompleteReply.status value <> ok ->
  onCompletionRequest_then n value s = Returned tt s.
Proof.
  intros H. unfold onCompletionRequest_then. run_console.
  destruct (CompletionModel.isDisposed (completion_model s)) eqn:Hd;
    [reflexivity|].
  destruct (N.eqb_spec n (_pendingComplete s)) as [Heq|Hne]; [|reflexivity].
  cbn. destruct H as [H|[H|H]]; [discriminate|contradiction|].
  by rewrite bool_decide_eq_false_2.
Qed.

(** The second continuation assigns [original] in every case. *)
Lemma onCompletionRequest_then_then_original (change : ICompletionRequest.t)
    (s : t) :
  onCompletionRequest_then_then change s
  = Returned tt
      (set_completion_model
         (CompletionModel.set_original (Some change) (completion_model s)) s).
Proof. reflexivity. Qed.

(** A dropped reply leaves the candidates, the cursor range and [current]
    as they were; [original] becomes the request of the reply. *)
Lemma dropped_completion_reply (n : N) (change : ICompletionRequest.t)
    (value : ICompleteReply.t) (s : t) :
  CompletionModel.isDisposed (completion_model s) = true
  \/ n <> _pendingComplete s
  \/ ICompleteReply.status value <> ok ->
  resume (Complete None 0 n change) (CompleteReply value) s
  = Returned tt
      (set_completion_model
         (CompletionModel.set_original (Some change) (completion_model s)) s).
Proof.
  intros H. cbn [resume]. unfold bind.
  by rewrite onCompletionRequest_then_dropped.
Qed.

End CompletionArbiter.

(** C2 fails on the code: the completion model holds the candidates for
    [pri]; a second request is issued and its reply has the status [error].
    The candidates and the cursor range stay, but [original] is now the
    second request, because the second continuation of the promise runs
    after the first one has bailed out. *)
Theorem failed_completion_reply_changes_original :
  let s1 := final_state (onCompletionRequest request_prin console_completing) in
  let s2 := final_state (settle 1 (CompleteReply reply_error) s1) in
  pending s1 = [KernelInfo; Complete (Some (Js.js "prin")) 4 2 request_prin]
  /\ CompletionModel.original (completion_model s1) = Some request_pri
  /\ settle 1 (CompleteReply reply_error) s1 = Returned tt s2
  /\ CompletionModel.options (completion_model s2) = Some [Js.js "print"]
  /\ CompletionModel.cursor (completion_model s2) = Some (0, 3)
  /\ CompletionModel.original (completion_model s2) = Some request_prin
  /\ completion_model s2 <> completion_model s1.
Proof. vm_compute. repeat split. discriminate. Qed.

(** C1 fails on the code for completion requests: two requests are issued
    from the fresh console, for [pri] and then for [prin]. The reply to the
    second arrives first and is applied; the reply to the first arrives
    afterwards, with the counter at 2 and its own number 1, and still
    changes the state: [original] goes back to the first request while the
    candidates are those of the second. *)
Theorem stale_completion_reply_changes_original :
  let s1 :=
    final_state ((onCompletionRequest request_pri >>
                  onCompletionRequest request_prin) console0) in
  let s2 := final_state (settle 2 (CompleteReply reply_println) s1) in
  let s3 := final_state (settle 1 (CompleteReply reply_print) s2) in
  pending s1 = [KernelInfo; Complete (Some (Js.js "pri")) 3 1 request_pri;
                Complete (Some (Js.js "prin")) 4 2 request_prin]
  /\ _pendingComplete s2 = 2%N
  /\ pending s2 = [KernelInfo; Complete (Some (Js.js "pri")) 3 1 request_pri]
  /\ CompletionModel.original (completion_model s2) = Some request_prin
  /\ settle 1 (CompleteReply reply_print) s2 = Returned tt s3
  /\ CompletionModel.options (completion_model s3) = Some [Js.js "println"]
  /\ CompletionModel.original (completion_model s3) = Some request_pri
  /\ s3 <> set_pending [KernelInfo] s2.
Proof. vm_compute. repeat split. discriminate. Qed.

(** ** The event loop *)

Section EventLoop.

Lemma in_use_lifecycle (s : t) : in_use s -> lifecycle_invariant s.
Proof.
  intros (_ & _ & _ & _ & _ & banner & committed & live & Hl & Hk & [Hb _]
          & Hc & Hr & _).
  exists banner, committed, live. repeat split; try done.
  eapply Forall_impl; [exact Hc|]. by intros w [H _].
Qed.

Lemma new_in_use (session_kernel : nat) (window : Z * Z) :
  in_use (final_state (new session_kernel window)).
Proof.
  repeat split; try by eexists.
  exists banner0, [], (fresh_prompt (Js.js "text/x-ipython")).
  repeat split. constructor.
Qed.

(** A step that leaves the layout and the presence of the collaborators as
    they are keeps a console in use. *)
Lemma in_use_frame (s s' : t) :
  in_use s ->
  isDisposed s' = isDisposed s ->
  _completion s' = _completion s ->
  CompletionModel.isDisposed (completion_model s')
  = CompletionModel.isDisposed (completion_model s) ->
  (is_Some (_tooltip s) -> is_Some (_tooltip s')) ->
  (is_Some (_history s) -> is_Some (_history s')) ->
  layout s' = layout s ->
  in_use s'.
Proof.
  intros (Hd & Hc & Hm & Ht & Hh & Hl) Ed Ec Em Et Eh El.
  unfold in_use. rewrite Ed, Ec, Em, El. auto 10.
Qed.

Lemma onTextChange_in_use (change : ITextChange.t) (s : t) :
  in_use s -> in_use (final_state (onTextChange change s)).
Proof.
  intros Hs. apply (in_use_frame s); [exact Hs|..];
    unfold onTextChange, updateTooltip; run_console; frame_case.
Qed.

Lemma onTextChange_returns (change : ITextChange.t) (s : t) :
  in_use s ->
  is_Some (Js.index (Js.split_newline (ITextChange.newValue change))
                    (ITextChange.line change)) ->
  returns (onTextChange change s) = true.
Proof.
  intros (_ & Hc & _ & [tooltip Ht] & _) [line Hline].
  unfold onTextChange, updateTooltip. run_console.
  rewrite Hc, Hline, Ht. frame_case.
Qed.

Lemma onCompletionRequest_in_use (change : ICompletionRequest.t) (s : t) :
  in_use s ->
  in_use (final_state (onCompletionRequest change s))
  /\ returns (onCompletionRequest change s) = true.
Proof.
  intros Hs. assert (Hc : _completion s = Object) by apply Hs. split.
  - apply (in_use_frame s); [exact Hs|..];
      unfold onCompletionRequest; run_console; frame_case.
  - unfold onCompletionRequest. run_console. cbn. by rewrite Hc.
Qed.

Lemma updateTooltip_then_in_use (n : N) (change : ITextChange.t)
    (value : IInspectReply.t) (s : t) :
  in_use s ->
  in_use (final_state (updateTooltip_then n change value s))
  /\ returns (updateTooltip_then n change value s) = true.
Proof.
  intros Hs. assert (Ht : is_Some (_tooltip s)) by apply Hs.
  destruct Ht as [tooltip Ht]. split.
  - apply (in_use_frame s); [exact Hs|..];
      unfold updateTooltip_then, showTooltip; run_console; frame_case.
  - unfold updateTooltip_then, showTooltip. run_console. frame_case.
Qed.

Lemma completion_reply_in_use (n : N) (change : ICompletionRequest.t)
    (value : ICompleteReply.t) (s : t) :
  in_use s ->
  in_use (final_state ((onCompletionRequest_then n value >>
                        onCompletionRequest_then_then change) s))
  /\ returns ((onCompletionRequest_then n value >>
               onCompletionRequest_then_then change) s) = true.
Proof.
  intros Hs. split.
  - apply (in_use_frame s); [exact Hs|..];
      unfold onCompletionRequest_then, onCompletionRequest_then_then;
      run_console; frame_case.
  - unfold onCompletionRequest_then, onCompletionRequest_then_then.
    run_console. frame_case.
Qed.

(** An assignment through a reference that keeps the flags keeps the
    console in use, wherever the reference points. *)
Lemma write_child_in_use (i : nat) (f : Cell.t -> Cell.t) (s : t) :
  keeps_flags f -> in_use s ->
  in_use (final_state (write_child i f s))
  /\ returns (write_child i f s) = true.
Proof.
  intros Hf (Hd & Hc & Hm & Ht & Hh & banner & committed & live & Hl & Hk
             & [Hbr Hbc] & Hcs & Hr & Hcn).
  split; [|reflexivity].
  unfold write_child. run_console. cbn. rewrite Hl. cbn.
  repeat (split; [done|]).
  destruct (Hf banner) as (Fk & Fr & Fc).
  destruct (Hf live) as (Lk & Lr & Lc).
  destruct i as [|j]; cbn.
  - exists (f banner), committed, live.
    unfold committed_entry. rewrite Fk, Fr, Fc. by repeat split.
  - destruct (decide (j < length committed)%nat) as [Hlt|Hge].
    + exists banner, (alter f j committed), live.
      rewrite alter_app_l by exact Hlt. repeat split; try done.
      apply Forall_alter; [exact Hcs|].
      intros w _ [Hwr Hwc]. destruct (Hf w) as (_ & Wr & Wc).
      unfold committed_entry. by rewrite Wr, Wc.
    + rewrite alter_app_r_alt by lia.
      destruct (j - length committed)%nat as [|k]; cbn.
      * exists banner, committed, (f live).
        rewrite Lr, Lc. by repeat split.
      * exists banner, committed, live. by repeat split.
Qed.

Lemma keeps_flags_edge_back (value : Js.Value) :
  keeps_flags (onEdgeRequest_back_then value).
Proof. intros w. by destruct value as [|[|c text]]. Qed.

Lemma keeps_flags_edge_forward (value : Js.Value) :
  keeps_flags (onEdgeRequest_forward_then value).
Proof. intros w. by destruct value as [|[|c text]]. Qed.

Lemma set_history_in_use (h : ConsoleHistory.t) (s : t) :
  in_use s -> in_use (set_history (Some h) s).
Proof.
  intros Hs. apply (in_use_frame s); try done; by eexists.
Qed.

Lemma onEdgeRequest_unfold (editor : nat) (location : EdgeLocation) (s : t)
    (h : ConsoleHistory.t) :
  _history s = Some h ->
  onEdgeRequest editor location s
  = match location with
    | top =>
        write_child editor
          (onEdgeRequest_back_then (ConsoleHistory.back h).1)
          (set_history (Some (ConsoleHistory.back h).2) s)
    | bottom =>
        write_child editor
          (onEdgeRequest_forward_then (ConsoleHistory.forward h).1)
          (set_history (Some (ConsoleHistory.forward h).2) s)
    end.
Proof.
  intros Hh. unfold onEdgeRequest. unfold bind at 1, get. unfold bind at 1.
  rewrite Hh. cbn [deref ret].
  destruct location;
    [destruct (ConsoleHistory.back h)|destruct (ConsoleHistory.forward h)];
    reflexivity.
Qed.

Lemma onEdgeRequest_in_use (editor : nat) (location : EdgeLocation) (s : t) :
  in_use s ->
  in_use (final_state (onEdgeRequest editor location s))
  /\ returns (onEdgeRequest editor location s) = true.
Proof.
  intros Hs. assert (Hh : is_Some (_history s)) by apply Hs.
  destruct Hh as [h Hh]. rewrite (onEdgeRequest_unfold _ _ _ h Hh).
  destruct location; apply write_child_in_use;
    auto using keeps_flags_edge_back, keeps_flags_edge_forward,
               set_history_in_use.
Qed.

Lemma in_use_prompt (s : t) :
  in_use s ->
  exists init live,
    layout s = Some (init ++ [live])
    /\ prompt s = Returned (Some (length init)) s.
Proof.
  intros (_ & _ & _ & _ & _ & banner & committed & live & Hl & _).
  exists (banner :: committed), live. split; [exact Hl|].
  by apply (prompt_last s (banner :: committed) live).
Qed.

Lemma onCompletionSelect_unfold
    (createPatch : CompletionModel.t -> list N -> option (list N * Z))
    (value : list N) (s : t) (init : list Cell.t) (live : Cell.t) :
  _completion s = Object ->
  layout s = Some (init ++ [live]) ->
  onCompletionSelect createPatch value s
  = match createPatch (completion_model s) value with
    | Some patch =>
        write_child (length init)
          (fun doc => Cell.setCursor patch.2 (Cell.setValue patch.1 doc)) s
    | None => Thrown s
    end.
Proof.
  intros Hc Hl. unfold onCompletionSelect. unfold bind at 1, get.
  rewrite Hc. unfold bind at 1. rewrite (prompt_last s init live Hl).
  unfold bind at 1. cbn [deref ret].
  by destruct (createPatch (completion_model s) value).
Qed.

Lemma onCompletionSelect_in_use
    (createPatch : CompletionModel.t -> list N -> option (list N * Z))
    (value : list N) (s : t) :
  in_use s ->
  in_use (final_state (onCompletionSelect createPatch value s))
  /\ (is_Some (createPatch (completion_model s) value) ->
      returns (onCompletionSelect createPatch value s) = true).
Proof.
  intros Hs. assert (Hc : _completion s = Object) by apply Hs.
  destruct (in_use_prompt s Hs) as (init & live & Hl & _).
  rewrite (onCompletionSelect_unfold _ _ s init live Hc Hl).
  destruct (createPatch (completion_model s) value) as [patch|].
  - split; [|intros _]; by apply write_child_in_use.
  - split; [exact Hs|]. by intros [? ?].
Qed.

Lemma advances_intro (m : M unit) :
  (forall s, in_use s ->
             in_use (final_state (m s)) /\ returns (m s) = true) ->
  advances m.
Proof.
  intros H s Hs. destruct (H s Hs) as [Hi Hr].
  destruct (m s) as [[] s'|s']; [|discriminate]. by exists s'.
Qed.

Lemma advances_seq (m k : M unit) :
  advances m -> advances k -> advances (m >> k).
Proof.
  intros Hm Hk s Hs. destruct (Hm s Hs) as (s1 & E1 & H1).
  destruct (Hk s1 H1) as (s2 & E2 & H2).
  exists s2. split; [|exact H2]. unfold bind. by rewrite E1.
Qed.

Lemma advances_final (m : M unit) (s : t) :
  advances m -> in_use s ->
  in_use (final_state (m s)) /\ returns (m s) = true.
Proof. intros Hm Hs. destruct (Hm s Hs) as (s' & -> & H'). by split. Qed.

Lemma advances_newPrompt : advances newPrompt.
Proof.
  intros s (Hd & Hc & Hm & Ht & Hh & banner & committed & live & Hl & Hk
            & Hb & Hcs & Hr & Hcn).
  rewrite (newPrompt_last s (banner :: committed) live Hl).
  eexists. split; [reflexivity|]. repeat (split; [done|]).
  exists banner, (committed ++ [commit live]), (fresh_prompt (_mimetype s)).
  split; [cbn; by rewrite <- app_assoc|].
  repeat split; try done; try apply Hb.
  apply Forall_app. split; [exact Hcs|]. by repeat constructor.
Qed.

Lemma advances_clear : advances clear.
Proof.
  intros s (Hd & Hc & Hm & Ht & Hh & banner & committed & live & Hl & Hk
            & Hb & Hcs & Hr & Hcn).
  rewrite (clear_spec s banner committed live Hl).
  eexists. split; [reflexivity|]. repeat (split; [done|]).
  exists banner,
    (drop ((length committed + 1) / 2) committed ++ [commit live]),
    (fresh_prompt (_mimetype s)).
  split; [cbn; by rewrite <- app_assoc|].
  repeat split; try done; try apply Hb.
  apply Forall_app. split; [by apply Forall_drop|]. by repeat constructor.
Qed.

Lemma advances_execute : advances execute.
Proof.
  intros s (Hd & Hc & Hm & Ht & [h Hh] & banner & committed & live & Hl & Hk
            & Hb & Hcs & Hr & Hcn).
  rewrite (execute_spec s (banner :: committed) live h Hl Hh).
  eexists. split; [reflexivity|].
  do 4 (split; [done|]). split; [by eexists|].
  exists banner, committed, (Cell.set_trusted true live).
  repeat split; cbn; try done; apply Hb.
Qed.

Lemma advances_initialize : advances initialize.
Proof.
  apply advances_intro. intros s Hs.
  assert (Hl : is_Some (layout s)).
  { destruct Hs as (_ & _ & _ & _ & _ & ? & ? & ? & -> & _). by eexists. }
  destruct Hl as [children Hl]. unfold initialize. run_console.
  rewrite Hl. cbn. split; [|reflexivity].
  apply (in_use_frame s); try done.
Qed.

Lemma advances_modify (f : t -> t) :
  (forall s, in_use s -> in_use (f s)) -> advances (modify f).
Proof. intros Hf s Hs. exists (f s). split; [reflexivity|]. by apply Hf. Qed.

Lemma advances_write_child (i : nat) (f : Cell.t -> Cell.t) :
  keeps_flags f -> advances (write_child i f).
Proof.
  intros Hf. apply advances_intro. intros s. by apply write_child_in_use.
Qed.

Lemma set_mimetype_in_use (mimetype : list N) (s : t) :
  in_use s -> in_use (set_mimetype mimetype s).
Proof. intros Hs. by apply (in_use_frame s). Qed.

Lemma advances_initialize_then (banner mimetype : list N) :
  advances (initialize_then banner mimetype).
Proof.
  unfold initialize_then.
  apply advances_seq; [by apply advances_write_child|].
  apply advances_seq; [apply advances_modify, set_mimetype_in_use|].
  intros s Hs. destruct (in_use_prompt s Hs) as (init & live & Hl & Hp).
  unfold bind. rewrite Hp.
  by apply advances_write_child.
Qed.

Lemma advances_resume (r : Request) (o : Settlement) : advances (resume r o).
Proof.
  assert (Hret : advances (ret tt)) by (intros s Hs; by exists s).
  destruct r, o; cbn [resume];
    auto using advances_initialize_then, advances_newPrompt.
  - apply advances_intro. intros s. apply updateTooltip_then_in_use.
  - apply advances_intro. intros s. apply completion_reply_in_use.
Qed.

Lemma set_pending_in_use (requests : list Request) (s : t) :
  in_use s -> in_use (set_pending requests s).
Proof. intros Hs. by apply (in_use_frame s). Qed.

Lemma advances_settle (k : nat) (o : Settlement) : advances (settle k o).
Proof.
  intros s Hs. unfold settle. unfold bind at 1, get.
  destruct (pending s !! k) as [r|]; [|by exists s].
  apply advances_seq; [|apply advances_resume|exact Hs].
  apply advances_modify. intros s'. apply set_pending_in_use.
Qed.

Lemma advances_onKernelChanged (k : nat) : advances (onKernelChanged k).
Proof.
  unfold onKernelChanged.
  apply advances_seq.
  { apply advances_modify. intros s Hs. by apply (in_use_frame s). }
  apply advances_seq; [apply advances_clear|].
  apply advances_seq; [apply advances_newPrompt|].
  apply advances_seq; [apply advances_initialize|].
  apply advances_modify. intros s. apply set_history_in_use.
Qed.

(** Every handler keeps a console in use, whether it returns or throws. *)
Lemma handle_in_use (e : Event) (s : t) :
  in_use s -> in_use (final_state (handle e s)).
Proof.
  intros Hs. destruct e; cbn [handle].
  - by apply onTextChange_in_use.
  - by apply onCompletionRequest_in_use.
  - by apply onEdgeRequest_in_use.
  - by apply onCompletionSelect_in_use.
  - apply advances_final; [apply advances_settle|done].
  - apply advances_final; [apply advances_onKernelChanged|done].
  - apply advances_final; [apply advances_execute|done].
  - apply advances_final; [apply advances_clear|done].
  - apply advances_final; [apply advances_newPrompt|done].
Qed.

Lemma handle_returns (e : Event) (s : t) :
  in_use s -> well_formed e s -> returns (handle e s) = true.
Proof.
  intros Hs Hw. destruct e; cbn [handle]; cbn in Hw.
  - by apply onTextChange_returns.
  - by apply onCompletionRequest_in_use.
  - by apply onEdgeRequest_in_use.
  - by apply onCompletionSelect_in_use.
  - apply advances_final; [apply advances_settle|done].
  - apply advances_final; [apply advances_onKernelChanged|done].
  - apply advances_final; [apply advances_execute|done].
  - apply advances_final; [apply advances_clear|done].
  - apply advances_final; [apply advances_newPrompt|done].
Qed.

Lemma run_in_use (events : list Event) :
  forall s, in_use s -> in_use (run events s).
Proof.
  induction events as [|e events IH]; intros s Hs; [exact Hs|].
  cbn [run]. by apply IH, handle_in_use.
Qed.

End EventLoop.

(** X1: after the constructor and any sequence of events other than
    [dispose] (editor signals, completion selections, settlements of pending
    requests in any order and with any content, kernel changes, calls of
    [execute], [clear] and [newPrompt]), whether the handlers return or
    throw, the console is in use: the banner is first, every child but the
    last is read-only and disconnected from the handlers, the last child is
    the one editable and connected prompt, and the collaborators are in
    place. *)
Theorem event_loop_keeps_console_in_use (session_kernel : nat)
    (window : Z * Z) (events : list Event) :
  in_use (run events (final_state (new session_kernel window)))
  /\ lifecycle_invariant (run events (final_state (new session_kernel window)))
  /\ editable_entries (run events (final_state (new session_kernel window)))
     = 1%nat.
Proof.
  assert (H : in_use (run events (final_state (new session_kernel window))))
    by apply run_in_use, new_in_use.
  split; [exact H|]. split; [by apply in_use_lifecycle|].
  by apply lifecycle_invariant_editable, in_use_lifecycle.
Qed.

(** X2: on a console in use no handler throws, except for a text change
    whose line index is outside the text and a completion selection for
    which the model has no patch; in particular no reply of the kernel,
    however late or whatever its content, makes a continuation throw. *)
Theorem handlers_return (e : Event) (s : t) :
  in_use s ->
  well_formed e s ->
  exists s', handle e s = Returned tt s' /\ in_use s'.
Proof.
  intros Hs Hw. pose proof (handle_in_use e s Hs) as Hi.
  pose proof (handle_returns e s Hs Hw) as Hr.
  destruct (handle e s) as [[] s'|s']; [|discriminate]. by exists s'.
Qed.

Lemma handlers_return_witness :
  exists s',
    handle (Settled 0 (KernelInfoReply (Js.js "Python 3")
                                       (Js.js "text/x-python"))) console0
    = Returned tt s' /\ in_use s'.
Proof.
  exact (handlers_return
           (Settled 0 (KernelInfoReply (Js.js "Python 3")
                                       (Js.js "text/x-python")))
           console0 (new_in_use 1 (600, 800)) I).
Defined.

(** ** After disposal *)

(** X3: [dispose] on a console in use returns; afterwards the console is
    disposed of (flag set, layout, tooltip, history and completion widget
    released, completion model disposed), while the pending requests and the
    two counters are as before: nothing is cancelled. *)
Theorem dispose_releases (s : t) :
  in_use s ->
  exists s',
    dispose s = Returned tt s'
    /\ disposed_of s'
    /\ pending s' = pending s
    /\ _pendingInspect s' = _pendingInspect s
    /\ _pendingComplete s' = _pendingComplete s.
Proof.
  intros (Hd & Hc & Hm & [tooltip Ht] & [h Hh] & _).
  unfold dispose, super_dispose. run_console.
  rewrite Hd, Ht, Hh, Hc. cbn. rewrite Hd.
  eexists. split; [reflexivity|]. by repeat split.
Qed.

Lemma dispose_releases_witness :
  exists s',
    dispose console0 = Returned tt s'
    /\ disposed_of s'
    /\ pending s' = pending console0
    /\ _pendingInspect s' = _pendingInspect console0
    /\ _pendingComplete s' = _pendingComplete console0.
Proof. exact (dispose_releases console0 (new_in_use 1 (600, 800))). Defined.


Lemma console_disposed_of : disposed_of console_disposed.
Proof. by repeat split. Qed.


(** X5: replies that reach a console that was disposed of. An inspect reply
    is dropped, whatever its number and content. The continuation of
    [execute] has no such guard: fulfilled or rejected, it calls [newPrompt],
    which throws and leaves the state as it is. *)
Theorem replies_after_dispose (s : t) (code : list N)
    (inspect_code : option (list N)) (cursor_pos detail_level : Z) (n : N)
    (change : ITextChange.t) (value : IInspectReply.t) :
  disposed_of s ->
  resume (Inspect inspect_code cursor_pos detail_level n change)
         (InspectReply value) s = Returned tt s
  /\ resume (Execute code) ExecuteReply s = Thrown s
  /\ resume (Execute code) Rejected s = Thrown s.
Proof.
  intros (Hd & Hl & Ht & Hh & Hc & Hm).
  split; [by apply updateTooltip_then_disposed|].
  split; by apply newPrompt_disposed.
Qed.

Lemma replies_after_dispose_witness :
  resume (Inspect None 3 0 1 change_space)
         (InspectReply (found_reply (Js.js "doc"))) console_disposed
  = Returned tt console_disposed
  /\ resume (Execute (Js.js "a = 1")) Rejected console_disposed
     = Thrown console_disposed.
Proof.
  pose proof (replies_after_dispose console_disposed (Js.js "a = 1") None
                3 0 1 change_space (found_reply (Js.js "doc"))
                console_disposed_of) as H.
  split; [exact (proj1 H)|exact (proj2 (proj2 H))].
Defined.

(** ** Accepted inspect replies *)



(** ** The order of inspect replies *)

(** X7: when the replies to a batch of inspect requests carry distinct
    numbers, then in whatever order they are delivered and whatever they
    contain, the console ends in the state that the reply with the latest
    number alone would have produced. *)
Theorem inspect_replies_any_order
    (replies : list (N * ITextChange.t * IInspectReply.t))
    (change : ITextChange.t) (value : IInspectReply.t) (s : t) :
  NoDup ((fun r => r.1.1) <$> replies) ->
  (_pendingInspect s, change, value) ∈ replies ->
  deliver_inspect_replies replies s
  = Returned tt
      (final_state (updateTooltip_then (_pendingInspect s) change value s)).
Proof.
  intros Hnd Hin.
  apply list_elem_of_split in Hin as (before & after & ->).
  apply deliver_latest_only.
  rewrite fmap_app, fmap_cons in Hnd. cbn in Hnd.
  apply NoDup_app in Hnd as (Hb & Hba & Ha).
  apply NoDup_cons in Ha as [Hna _].
  apply Forall_app. split; apply Forall_forall; intros r Hr Heq.
  - apply (Hba (r.1.1)).
    + exact (list_elem_of_fmap_2
               (fun r : N * ITextChange.t * IInspectReply.t => r.1.1)
               before r Hr).
    + rewrite Heq. by left.
  - apply Hna. rewrite <- Heq.
    exact (list_elem_of_fmap_2
             (fun r : N * ITextChange.t * IInspectReply.t => r.1.1)
             after r Hr).
Qed.

Lemma inspect_replies_any_order_witness :
  deliver_inspect_replies
    [(2%N, change_at (Js.js "pr"), found_reply (Js.js "doc of pr"));
     (3%N, change_at (Js.js "pri"), found_reply (Js.js "doc of pri"));
     (1%N, change_at (Js.js "p"), found_reply (Js.js "doc of p"))]
    console_inspecting
  = Returned tt
      (final_state
         (updateTooltip_then 3 (change_at (Js.js "pri"))
            (found_reply (Js.js "doc of pri")) console_inspecting)).
Proof.
  apply (inspect_replies_any_order _ (change_at (Js.js "pri"))
           (found_reply (Js.js "doc of pri")) console_inspecting).
  - cbn. apply (bool_decide_unpack _). by vm_compute.
  - cbn. right. left.
Defined.

(** X8: issuing an inspect request retires every number issued before it:
    while the counter is below 2^53, once [updateTooltip] has run, a reply
    that carries a number up to the previous value of the counter is
    dropped without any change of state. *)
Theorem new_inspect_request_retires_older (s : t) (change : ITextChange.t)
    (n : N) (older : ITextChange.t) (value : IInspectReply.t) :
  (_pendingInspect s < 2 ^ 53)%N ->
  (n <= _pendingInspect s)%N ->
  updateTooltip_then n older value (final_state (updateTooltip change s))
  = Returned tt (final_state (updateTooltip change s)).
Proof.
  intros Hlt Hn. destruct (updateTooltip_issues change s Hlt) as (code & ->).
  apply updateTooltip_then_stale. cbn. lia.
Qed.

Lemma new_inspect_request_retires_older_witness :
  updateTooltip_then 3 (change_at (Js.js "pri"))
    (found_reply (Js.js "doc of pri"))
    (final_state (updateTooltip (change_at (Js.js "prin")) console_inspecting))
  = Returned tt
      (final_state
         (updateTooltip (change_at (Js.js "prin")) console_inspecting)).
Proof.
  apply (new_inspect_request_retires_older console_inspecting); cbn; lia.
Defined.

(** ** Text changes that continue a token *)

(** X9: when the character before the cursor is not white space, the
    handler of a text change sends exactly one inspect request, for the line
    of the cursor, with the cursor's column, detail level 0 and the
    incremented counter; the test on [change.newValue] never fails there,
    since a line with a character makes the text non-empty. The candidates,
    the original request and the cursor range of the completion model and
    the tooltip are left alone, and [current] becomes the change exactly
    when a completion is active. *)
Theorem text_change_requests_inspection (s : t) (change : ITextChange.t)
    (line : list N) (c : N) :
  _completion s = Object ->
  Js.index (Js.split_newline (ITextChange.newValue change))
           (ITextChange.line change) = Some line ->
  Js.index line (ITextChange.ch change - 1) = Some c ->
  Js.is_whitespace c = false ->
  (_pendingInspect s < 2 ^ 53)%N ->
  exists s',
    onTextChange change s = Returned tt s'
    /\ pending s'
       = pending s ++ [Inspect (Some line) (ITextChange.ch change) 0
                         (_pendingInspect s + 1) change]
    /\ _pendingInspect s' = (_pendingInspect s + 1)%N
    /\ CompletionModel.options (completion_model s')
       = CompletionModel.options (completion_model s)
    /\ CompletionModel.original (completion_model s')
       = CompletionModel.original (completion_model s)
    /\ CompletionModel.cursor (completion_model s')
       = CompletionModel.cursor (completion_model s)
    /\ CompletionModel.current (completion_model s')
       = match CompletionModel.original (completion_model s) with
         | Some _ => Some change
         | None => CompletionModel.current (completion_model s)
         end
    /\ _tooltip s' = _tooltip s
    /\ layout s' = layout s.
Proof.
  intros Hc Hline Hchar Hws Hlt.
  assert (Hne : ITextChange.newValue change <> []).
  { intros E. rewrite E in Hline. cbn in Hline. unfold Js.index in Hline.
    destruct (ITextChange.line change <? 0); [discriminate|].
    destruct (Z.to_nat (ITextChange.line change)) as [|k];
      cbn in Hline; [|discriminate].
    injection Hline as <-. unfold Js.index in Hchar.
    by destruct (ITextChange.ch change - 1 <? 0). }
  unfold onTextChange, updateTooltip, Js.pre_increment. run_console.
  rewrite Hc, Hline. cbn. rewrite Hchar. unfold Js.matches_non_space.
  rewrite Hws. cbn.
  destruct (ITextChange.newValue change) as [|c0 text] eqn:Ev; [done|].
  destruct (CompletionModel.original (completion_model s)) eqn:Eo; cbn;
    destruct (N.ltb_spec (_pendingInspect s) (2 ^ 53)); try lia;
    eexists; (split; [reflexivity|]); cbn;
    rewrite ?Eo; by repeat split.
Qed.

Lemma text_change_requests_inspection_witness :
  exists s',
    onTextChange (change_at (Js.js "prin")) console_completing
    = Returned tt s'
    /\ pending s'
       = pending console_completing
         ++ [Inspect (Some (Js.js "prin")) 4 0 1 (change_at (Js.js "prin"))]
    /\ CompletionModel.current (completion_model s')
       = Some (change_at (Js.js "prin")).
Proof.
  destruct (text_change_requests_inspection console_completing
              (change_at (Js.js "prin")) (Js.js "prin") 110
              eq_refl eq_refl eq_refl eq_refl eq_refl)
    as (s' & E & Hp & _ & _ & _ & _ & Hcur & _).
  exists s'. repeat split; assumption.
Defined.

Lemma settle_unfold (k : nat) (o : Settlement) (s : t) :
  settle k o s
  = match pending s !! k with
    | Some r => resume r o (set_pending (delete k (pending s)) s)
    | None => Returned tt s
    end.
Proof. unfold settle. run_console. by destruct (pending s !! k). Qed.

(** X10: the auxiliary services never touch the transcript: a text change,
    a completion request, and the settlement of any pending request with an
    inspect or a complete reply leave the layout, the history and the
    disposed flag as they are, whether the handler returns or throws. *)
Theorem auxiliary_events_leave_transcript (e : Event) (s : t) :
  auxiliary e ->
  layout (final_state (handle e s)) = layout s
  /\ _history (final_state (handle e s)) = _history s
  /\ isDisposed (final_state (handle e s)) = isDisposed s.
Proof.
  intros He. destruct e as [change|change| | |k o| | | |]; try done;
    cbn [handle].
  - unfold onTextChange, updateTooltip. run_console.
    repeat split; frame_case.
  - unfold onCompletionRequest. run_console. repeat split; frame_case.
  - rewrite settle_unfold.
    destruct (pending s !! k) as [r|]; [|done].
    destruct o; try done; destruct r; cbn [resume];
      unfold updateTooltip_then, showTooltip, onCompletionRequest_then,
        onCompletionRequest_then_then;
      run_console; repeat split; frame_case.
Qed.

Lemma auxiliary_events_leave_transcript_witness :
  layout (final_state
            (handle (Settled 3 (InspectReply (found_reply (Js.js "doc"))))
                    console_inspecting))
  = layout console_inspecting.
Proof.
  exact (proj1 (auxiliary_events_leave_transcript
                  (Settled 3 (InspectReply (found_reply (Js.js "doc"))))
                  console_inspecting I)).
Defined.

(** ** Completion requests and their replies *)

(** X11: a completion request followed by its own reply. On a console whose
    completion widget is in place and whose model is not disposed, with the
    counter below 2^53, [onCompletionRequest] sends one request for the line
    of the cursor and the cursor's column; when the reply has the status
    [ok] and no other request was issued in between, the model holds the
    matches of the reply, its cursor range, and the request as [original],
    and no request of the pair is left pending. *)
Theorem completion_round_trip (s : t) (change : ICompletionRequest.t)
    (value : ICompleteReply.t) :
  _completion s = Object ->
  CompletionModel.isDisposed (completion_model s) = false ->
  (_pendingComplete s < 2 ^ 53)%N ->
  ICompleteReply.status value = ok ->
  exists s1 s2,
    onCompletionRequest change s = Returned tt s1
    /\ pending s1
       = pending s
         ++ [Complete
               (Js.index
                  (Js.split_newline (ICompletionRequest.currentValue change))
                  (ICompletionRequest.line change))
               (ICompletionRequest.ch change)
               (_pendingComplete s + 1) change]
    /\ settle (length (pending s)) (CompleteReply value) s1 = Returned tt s2
    /\ completion_model s2
       = {| CompletionModel.options := Some (ICompleteReply.matches value);
            CompletionModel.original := Some change;
            CompletionModel.cursor :=
              Some (ICompleteReply.cursor_start value,
                    ICompleteReply.cursor_end value);
            CompletionModel.current :=
              CompletionModel.current (completion_model s);
            CompletionModel.isDisposed := false |}
    /\ pending s2 = pending s
    /\ _pendingComplete s2 = (_pendingComplete s + 1)%N.
Proof.
  intros Hc Hm Hlt Hok.
  assert (Hinc : Js.pre_increment (_pendingComplete s)
                 = (_pendingComplete s + 1)%N).
  { unfold Js.pre_increment.
    by destruct (N.ltb_spec (_pendingComplete s) (2 ^ 53)); [|lia]. }
  eexists _, _. split.
  { unfold onCompletionRequest. run_console. cbn. rewrite Hc, Hinc.
    reflexivity. }
  split; [reflexivity|].
  set (s0 := set_pendingComplete _ s).
  change (pending s) with (pending s0). rewrite settle_last.
  cbn [resume]. unfold onCompletionRequest_then,
    onCompletionRequest_then_then. run_console. cbn.
  rewrite Hm, N.eqb_refl. cbn.
  rewrite bool_decide_eq_true_2 by exact Hok. cbn.
  split; [reflexivity|]. cbn. repeat split.
  unfold CompletionModel.set_original, CompletionModel.set_cursor,
    CompletionModel.set_options. cbn. by rewrite Hm.
Qed.

Lemma completion_round_trip_witness :
  exists s1 s2,
    onCompletionRequest request_prin console_completing = Returned tt s1
    /\ settle 1 (CompleteReply reply_println) s1 = Returned tt s2
    /\ completion_model s2
       = {| CompletionModel.options := Some [Js.js "println"];
            CompletionModel.original := Some request_prin;
            CompletionModel.cursor := Some (0, 4);
            CompletionModel.current := None;
            CompletionModel.isDisposed := false |}.
Proof.
  destruct (completion_round_trip console_completing request_prin
              reply_println eq_refl eq_refl eq_refl eq_refl)
    as (s1 & s2 & E1 & _ & E2 & Hm & _).
  exists s1, s2. repeat split; assumption.
Defined.

(** X12: a complete reply that is dropped (the model is disposed, a newer
    request was issued, or the status is not [ok]) leaves the candidates,
    the cursor range and [current] of the completion model as they were, and
    changes nothing of the console outside the model. *)
Theorem dropped_completion_reply_keeps_candidates (s : t)
    (code : option (list N)) (cursor_pos : Z) (n : N)
    (change : ICompletionRequest.t) (value : ICompleteReply.t) :
  CompletionModel.isDisposed (completion_model s) = true
  \/ n <> _pendingComplete s
  \/ ICompleteReply.status value <> ok ->
  exists model,
    resume (Complete code cursor_pos n change) (CompleteReply value) s
    = Returned tt (set_completion_model model s)
    /\ CompletionModel.options model
       = CompletionModel.options (completion_model s)
    /\ CompletionModel.cursor model
       = CompletionModel.cursor (completion_model s)
    /\ CompletionModel.current model
       = CompletionModel.current (completion_model s)
    /\ CompletionModel.isDisposed model
       = CompletionModel.isDisposed (completion_model s).
Proof.
  intros H. eexists. split.
  - cbn [resume]. unfold bind.
    rewrite onCompletionRequest_then_dropped by exact H. reflexivity.
  - by repeat split.
Qed.

Lemma dropped_completion_reply_keeps_candidates_witness :
  exists model,
    resume (Complete None 4 2 request_prin) (CompleteReply reply_error)
           console_completing
    = Returned tt (set_completion_model model console_completing)
    /\ CompletionModel.options model = Some [Js.js "print"]
    /\ CompletionModel.cursor model = Some (0, 3).
Proof.
  destruct (dropped_completion_reply_keeps_candidates console_completing
              None 4 2 request_prin reply_error)
    as (model & E & Ho & Hc & _).
  - right. left. discriminate.
  - exists model. repeat split; assumption.
Defined.

(** ** The kernel's information and a change of kernel *)

Lemma insert_last (init : list Cell.t) (w w' : Cell.t) :
  <[length init := w']> (init ++ [w]) = init ++ [w'].
Proof. rewrite insert_app_r_alt by lia. by rewrite Nat.sub_diag. Qed.

Lemma lookup_last (init : list Cell.t) (w : Cell.t) :
  (init ++ [w]) !! length init = Some w.
Proof. rewrite lookup_app_r by lia. by rewrite Nat.sub_diag. Qed.

(** X13: the reply to [kernelInfo()] puts the kernel's banner text in the
    banner and the kernel's mimetype in the console and in the live prompt;
    the committed entries keep the mimetype they had, and a prompt made by
    [newPrompt] afterwards carries the kernel's mimetype. *)
Theorem kernel_info_reply_sets_mimetype (s : t) (banner : Cell.t)
    (committed : list Cell.t) (live : Cell.t) (text mimetype : list N) :
  layout s = Some (banner :: committed ++ [live]) ->
  exists s' s'' next,
    resume KernelInfo (KernelInfoReply text mimetype) s = Returned tt s'
    /\ layout s'
       = Some (Cell.set_source text banner
               :: committed ++ [Cell.set_mimetype mimetype live])
    /\ _mimetype s' = mimetype
    /\ newPrompt s' = Returned tt s''
    /\ layout s''
       = Some (Cell.set_source text banner
               :: committed
                  ++ [commit (Cell.set_mimetype mimetype live); next])
    /\ Cell.mimetype next = Some mimetype
    /\ Cell.readOnly next = false.
Proof.
  intros Hl.
  set (init := Cell.set_source text banner :: committed).
  set (s1 := set_mimetype mimetype (set_layout (Some (init ++ [live])) s)).
  assert (E : resume KernelInfo (KernelInfoReply text mimetype) s
              = Returned tt
                  (set_layout
                     (Some (init ++ [Cell.set_mimetype mimetype live])) s1)).
  { cbn [resume]. unfold initialize_then. unfold bind at 1.
    rewrite (write_child_lookup s _ 0 banner _ Hl eq_refl).
    unfold bind at 1, modify. cbn [insert list_insert].
    change (set_mimetype mimetype
              (set_layout
                 (Some (Cell.set_source text banner :: committed ++ [live]))
                 s)) with s1.
    unfold bind.
    rewrite (prompt_last s1 init live eq_refl).
    rewrite (write_child_lookup s1 (init ++ [live]) (length init) live _
               eq_refl (lookup_last init live)).
    by rewrite insert_last. }
  eexists _, _, _. split; [exact E|]. split; [reflexivity|].
  split; [reflexivity|]. split.
  { by rewrite (newPrompt_last _ init (Cell.set_mimetype mimetype live)). }
  split; [reflexivity|]. by split.
Qed.

Lemma kernel_info_reply_sets_mimetype_witness :
  exists s' s'' next,
    resume KernelInfo
      (KernelInfoReply (Js.js "Python 3") (Js.js "text/x-python")) console1
    = Returned tt s'
    /\ _mimetype s' = Js.js "text/x-python"
    /\ newPrompt s' = Returned tt s''
    /\ Cell.mimetype next = Some (Js.js "text/x-python").
Proof.
  destruct (kernel_info_reply_sets_mimetype console1 banner0
              [committed_prompt (Js.js "a = 1")] live_prompt
              (Js.js "Python 3") (Js.js "text/x-python") eq_refl)
    as (s' & s'' & next & E & _ & Hm & En & _ & Hn & _).
  exists s', s'', next. repeat split; assumption.
Defined.

(** X14: a change of kernel. The handler calls [clear], which itself ends
    with [newPrompt], and then [newPrompt] again: the banner stays, the
    second half of the committed entries stays, the previous live prompt is
    committed, one more empty prompt is committed after it, and a fresh
    prompt is live. The console points at the new kernel, one more
    [kernelInfo] request is pending, and the history is a new one for the
    new kernel. *)
Theorem kernel_change_resets (s : t) (k : nat) (banner : Cell.t)
    (committed : list Cell.t) (live : Cell.t) :
  layout s = Some (banner :: committed ++ [live]) ->
  exists s',
    onKernelChanged k s = Returned tt s'
    /\ kernel s' = k
    /\ _history s' = Some (createHistory k)
    /\ pending s' = pending s ++ [KernelInfo]
    /\ layout s'
       = Some (banner
               :: drop ((length committed + 1) / 2) committed
                  ++ [commit live;
                      commit (fresh_prompt (_mimetype s));
                      fresh_prompt (_mimetype s)]).
Proof.
  intros Hl. unfold onKernelChanged. unfold bind at 1, modify.
  unfold bind at 1.
  rewrite (clear_spec (set_kernel k s) banner committed live Hl).
  set (kept := drop ((length committed + 1) / 2) committed).
  unfold bind at 1.
  rewrite (newPrompt_last _ (banner :: kept ++ [commit live])
             (fresh_prompt (_mimetype s)))
    by (cbn; by rewrite <- app_assoc).
  unfold initialize. run_console. cbn.
  eexists. split; [reflexivity|]. cbn. repeat split.
  by rewrite <- app_assoc.
Qed.

Lemma kernel_change_resets_witness :
  exists s',
    onKernelChanged 2 console2 = Returned tt s'
    /\ _history s' = Some (createHistory 2)
    /\ List.map Cell.source (children_of s')
       = [[]; Js.js "b = 2"; []; []; []].
Proof.
  destruct (kernel_change_resets console2 2 banner0
              [committed_prompt (Js.js "a = 1");
               committed_prompt (Js.js "b = 2")] live_prompt eq_refl)
    as (s' & E & _ & Hh & _ & Hl).
  exists s'. split; [exact E|]. split; [exact Hh|].
  unfold children_of. by rewrite Hl.
Defined.

(** ** The selection of a completion *)



(** ** What [clear], [serialize] and [newPrompt] do in general *)

(** X16: [clear] on a console with a banner, N committed entries and a live
    prompt takes out the first N/2 committed entries, rounded up, and
    nothing else: the banner, the other committed entries and the previous
    live prompt stay in order, the live prompt is committed and a fresh one
    follows. With at most one committed entry the layout is left with the
    banner, the previous live prompt and the fresh prompt. *)
Theorem clear_removes_first_half (s : t) (banner : Cell.t)
    (committed : list Cell.t) (live : Cell.t) :
  layout s = Some (banner :: committed ++ [live]) ->
  clear s
  = Returned tt
      (set_layout
         (Some (banner :: drop ((length committed + 1) / 2) committed
                  ++ [commit live; fresh_prompt (_mimetype s)])) s)
  /\ length (drop ((length committed + 1) / 2) committed)
     = (length committed / 2)%nat
  /\ ((length committed <= 1)%nat ->
      drop ((length committed + 1) / 2) committed = []).
Proof.
  intros Hl. split; [by apply clear_spec|].
  assert (Hhalf : ((length committed + 1) / 2 + length committed / 2
                   = length committed)%nat).
  { pose proof (Nat.div_mod_eq (length committed) 2).
    pose proof (Nat.div_mod_eq (length committed + 1) 2).
    pose proof (Nat.mod_upper_bound (length committed) 2 ltac:(lia)).
    pose proof (Nat.mod_upper_bound (length committed + 1) 2 ltac:(lia)).
    lia. }
  split.
  - rewrite length_drop. lia.
  - intros Hle. apply drop_ge.
    destruct committed as [|w [|w' rest]]; cbn in *; lia.
Qed.

Lemma clear_removes_first_half_witness :
  clear console2
  = Returned tt
      (set_layout
         (Some [banner0; committed_prompt (Js.js "b = 2");
                commit live_prompt; live_prompt]) console2).
Proof.
  exact (proj1 (clear_removes_first_half console2 banner0
                  [committed_prompt (Js.js "a = 1");
                   committed_prompt (Js.js "b = 2")] live_prompt eq_refl)).
Defined.

(** X17: [serialize] in every state: when the layout is gone it throws;
    otherwise it returns, without changing the state, the records of all
    children but the first, in order, so one record fewer than there are
    children, and none for a layout that is empty or holds the banner
    alone. *)
Theorem serialize_in_every_state {R : Type} (toJSON : Cell.t -> R) (s : t) :
  match layout s with
  | None => serialize toJSON s = Thrown s
  | Some children =>
      serialize toJSON s = Returned (List.map toJSON (drop 1 children)) s
      /\ length (List.map toJSON (drop 1 children))
         = Nat.pred (length children)
  end.
Proof.
  rewrite serialize_spec. destruct (layout s) as [children|]; [|reflexivity].
  split; [reflexivity|]. rewrite List.length_map, length_drop. lia.
Qed.

(** X18: [newPrompt] on a console whose layout is there returns and changes
    only the layout: it has one more child, the text of every child that was
    there is as before, the new child is an empty, editable, connected
    prompt with the mimetype of the console, and the child that was last,
    if any, is read-only and disconnected. *)
Theorem newPrompt_appends (s : t) (children : list Cell.t) :
  layout s = Some children ->
  exists children' next,
    newPrompt s = Returned tt (set_layout (Some (children' ++ [next])) s)
    /\ length children' = length children
    /\ List.map Cell.source children' = List.map Cell.source children
    /\ next = fresh_prompt (_mimetype s)
    /\ Cell.source next = []
    /\ Cell.readOnly next = false
    /\ Cell.connected next = true
    /\ match last children' with
       | Some w => Cell.readOnly w = true /\ Cell.connected w = false
       | None => children = []
       end.
Proof.
  intros Hl. destruct children as [|w init _] using rev_ind.
  - exists [], (fresh_prompt (_mimetype s)).
    split; [by apply newPrompt_empty|]. by repeat split.
  - exists (init ++ [commit w]), (fresh_prompt (_mimetype s)).
    split.
    { rewrite (newPrompt_last s init w Hl). by rewrite <- app_assoc. }
    split; [by rewrite !length_app|].
    split; [by rewrite !List.map_app|].
    repeat split; rewrite last_snoc; by cbn.
Qed.

Lemma newPrompt_appends_witness :
  exists children' next,
    newPrompt console1
    = Returned tt (set_layout (Some (children' ++ [next])) console1)
    /\ List.map Cell.source children' = [[]; Js.js "a = 1"; []]
    /\ Cell.readOnly next = false.
Proof.
  destruct (newPrompt_appends console1 (children_of console1) eq_refl)
    as (children' & next & E & _ & Hs & _ & _ & Hr & _).
  exists children', next. repeat split; assumption.
Defined.

(** ** The bundle after normalisation *)

(** X19: after [processInspectReply] the bundle always has a console-text
    entry; that entry is truthy exactly when the console-text entry or the
    plain-text entry of the argument was, and the plain-text entry is the one
    of the argument. *)
Theorem processInspectReply_keeps_content (bundle : MimeBundle.t) :
  is_Some (Private.processInspectReply bundle !! Private.consoleMime)
  /\ Js.truthy
       (MimeBundle.get (Private.processInspectReply bundle)
                       Private.consoleMime)
     = Js.truthy (MimeBundle.get bundle Private.consoleMime)
       || Js.truthy (MimeBundle.get bundle Private.textMime)
  /\ Private.processInspectReply bundle !! Private.textMime
     = bundle !! Private.textMime.
Proof.
  split; [|split].
  - unfold Private.processInspectReply, MimeBundle.set.
    rewrite lookup_insert_eq. by eexists.
  - rewrite get_processInspectReply_console. unfold Js.or.
    by destruct (Js.truthy (MimeBundle.get bundle Private.consoleMime))
      eqn:E; rewrite ?E.
  - unfold Private.processInspectReply, MimeBundle.set.
    apply lookup_insert_ne. apply consoleMime_neq_textMime.
Qed.

(** ** White space and pending requests *)

Lemma onTextChange_resets (s : t) (change : ITextChange.t) (line : list N)
    (tooltip : ConsoleTooltip.t) :
  _completion s = Object ->
  _tooltip s = Some tooltip ->
  Js.index (Js.split_newline (ITextChange.newValue change))
           (ITextChange.line change) = Some line ->
  whitespace_or_absent (Js.index line (ITextChange.ch change - 1)) ->
  onTextChange change s = Returned tt (reset_completion tooltip s).
Proof.
  intros Hc Ht Hline Hws. unfold onTextChange. run_console.
  rewrite Hc, Hline. cbn.
  destruct (Js.index line (ITextChange.ch change - 1)) as [c|]; cbn in Hws.
  - unfold Js.matches_non_space. rewrite Hws. cbn. by rewrite Ht.
  - by rewrite Ht.
Qed.

(** X20: the reset on white space does not retire the request that is in
    flight. The handler empties the completion model but leaves the counter
    of completion requests as it is, so when the reply to the latest request
    arrives afterwards with the status [ok], it is accepted and the model is
    populated again with its matches, its cursor range and its request. *)
Theorem whitespace_does_not_retire_completion (s : t)
    (change : ITextChange.t) (line : list N) (tooltip : ConsoleTooltip.t)
    (code : option (list N)) (cursor_pos : Z)
    (request : ICompletionRequest.t) (value : ICompleteReply.t) :
  _completion s = Object ->
  _tooltip s = Some tooltip ->
  Js.index (Js.split_newline (ITextChange.newValue change))
           (ITextChange.line change) = Some line ->
  whitespace_or_absent (Js.index line (ITextChange.ch change - 1)) ->
  CompletionModel.isDisposed (completion_model s) = false ->
  ICompleteReply.status value = ok ->
  exists s1 s2,
    onTextChange change s = Returned tt s1
    /\ CompletionModel.options (completion_model s1) = None
    /\ _pendingComplete s1 = _pendingComplete s
    /\ resume (Complete code cursor_pos (_pendingComplete s) request)
              (CompleteReply value) s1
       = Returned tt s2
    /\ CompletionModel.options (completion_model s2)
       = Some (ICompleteReply.matches value)
    /\ CompletionModel.cursor (completion_model s2)
       = Some (ICompleteReply.cursor_start value,
               ICompleteReply.cursor_end value)
    /\ CompletionModel.original (completion_model s2) = Some request.
Proof.
  intros Hc Ht Hline Hws Hm Hok.
  eexists _, _. split; [by eapply onTextChange_resets|].
  split; [reflexivity|]. split; [reflexivity|].
  split.
  - cbn [resume]. unfold onCompletionRequest_then,
      onCompletionRequest_then_then. run_console. cbn.
    rewrite Hm, N.eqb_refl. cbn.
    rewrite bool_decide_eq_true_2 by exact Hok. reflexivity.
  - by repeat split.
Qed.

(** X20 at the console where a completion was requested for [pri] and the
    reply has not arrived when the space is typed. *)
Lemma whitespace_does_not_retire_completion_witness :
  exists s1 s2,
    onTextChange change_space
      (final_state (onCompletionRequest request_pri console0))
    = Returned tt s1
    /\ resume (Complete (Some (Js.js "pri")) 3 1 request_pri)
              (CompleteReply reply_print) s1
       = Returned tt s2
    /\ CompletionModel.options (completion_model s2)
       = Some [Js.js "print"].
Proof.
  destruct (whitespace_does_not_retire_completion
              (final_state (onCompletionRequest request_pri console0))
              change_space (Js.js "pri ") createTooltip
              (Some (Js.js "pri")) 3 request_pri reply_print
              eq_refl eq_refl eq_refl eq_refl eq_refl eq_refl)
    as (s1 & s2 & E1 & _ & _ & E2 & Ho & _).
  exists s1, s2. repeat split; assumption.
Defined.
